(** * AudioRecordingApp-Auth: the audio and authentication state containers

    A shallow embedding of [contexts/AudioContext.tsx] (the [AudioProvider]
    component: recording catalog, capture session, playback session) and of
    [contexts/AuthContext.tsx] (the [AuthProvider] component), followed by
    the properties of the specification that concern them.

    The React state of both providers, the two key-value stores and the
    audio device are gathered in one record, [World].  An [async] function
    of the source is a computation of type [Async A]: it transforms the
    world and either returns a value or throws.  What the platform answers
    during one call (which promises reject, what the microphone permission
    is, the clock) is an argument of type [Platform]. *)

From Stdlib Require Import String Ascii List Bool Arith ZArith NArith Lia.
From Stdlib Require Import DecimalString.
From Stdlib Require DecimalN.
Import ListNotations.
Open Scope string_scope.

(** ** Data model *)

Inductive Theme := light | dark.

Record Settings := mkSettings {
  theme : Theme;
  notifications : bool;
  cloudSync : bool
}.

Module User.
Record t := mk {
  id : string;
  email : string;
  name : string;
  settings : Settings
}.
End User.

Module Recording.
Record t := mk {
  id : string;
  uri : string;
  duration : Z;
  title : string;
  createdAt : string;
  userId : string
}.

(** [{ ...recording, title: newTitle }] *)
Definition with_title (newTitle : string) (r : t) : t :=
  mk (id r) (uri r) (duration r) newTitle (createdAt r) (userId r).
End Recording.

(** A string held by a key-value store, seen through [JSON.parse] at the
    type the source reads it at: either text that [JSON.parse] rejects, or
    the [JSON.stringify] image of a value of that type. *)
Inductive stored (A : Type) :=
| Garbled (raw : string)
| Json (a : A).
Arguments Garbled {A} raw.
Arguments Json {A} a.

(** The keys of [AsyncStorage] the two providers use, indexed by the type
    of what is serialised under them. *)
Inductive Key : Type -> Type :=
| RECORDINGS_STORAGE_KEY : Key (list Recording.t)   (* 'audioRecordings' *)
| userData_key : Key User.t.                        (* 'userData' *)

Definition key_name {A} (k : Key A) : string :=
  match k with
  | RECORDINGS_STORAGE_KEY => "audioRecordings"
  | userData_key => "userData"
  end.

Record Storage := mkStorage {
  audioRecordings : option (stored (list Recording.t));
  userData : option (stored User.t);
  userToken : option string              (* SecureStore, key 'userToken' *)
}.

Record AudioMode := mkAudioMode {
  allowsRecordingIOS : bool;
  playsInSilentModeIOS : bool
}.

(** Handles to [Audio.Recording] and [Audio.Sound] objects. *)
Definition handle := nat.

Record Device := mkDevice {
  audioMode : AudioMode;
  openCaptures : list handle;    (* prepared or running captures *)
  openSounds : list handle;      (* loaded sounds *)
  nextHandle : handle;
  files : list string            (* audio payloads on the filesystem *)
}.

(** [useState] cells of [AudioProvider]. *)
Record AudioState := mkAudioState {
  recordings : list Recording.t;
  currentRecording : option handle;
  isRecording : bool;
  currentSound : option handle;
  isPlaying : bool;
  currentPlayingId : option string
}.

(** [useState] cells of [AuthProvider]. *)
Record AuthState := mkAuthState {
  user : option User.t;
  loading : bool
}.

(** What the collaborators were asked to do, newest first.  A call that
    rejects leaves no event. *)
Inductive Event :=
| RequestedPermissions
| SetAudioMode (m : AudioMode)
| PreparedCapture (h : handle)
| StartedCapture (h : handle)
| StoppedCapture (h : handle)
| CreatedSound (h : handle) (uri : string)
| StoppedSound (h : handle)
| UnloadedSound (h : handle)
| DeletedFile (uri : string)
| ReadItem (key : string)
| WroteItem (key : string)
| RemovedItem (key : string)
| SecureRead (key : string)
| SecureWrote (key : string)
| SecureDeleted (key : string)
| Alerted (title message : string)
| ConsoleError (message error : string)
| Navigated (path : string).

Record World := mkWorld {
  audio : AudioState;
  auth : AuthState;
  storage : Storage;
  device : Device;
  events : list Event
}.

(** ** The platform's answers during one call *)

Inductive Call :=
| requestPermissionsAsync | setAudioModeAsync | prepareToRecordAsync
| startAsync | stopAndUnloadAsync | getStatusAsync
| createAsync | stopAsync | unloadAsync | deleteAsync
| getItem | setItem | removeItem
| getItemAsync | setItemAsync | deleteItemAsync.

Record Platform := mkPlatform {
  rejects : Call -> bool;             (* does this promise reject? *)
  granted : bool;                     (* permission.granted *)
  getURI : option string;             (* currentRecording.getURI() *)
  durationMillis : option Z;          (* status.durationMillis *)
  Date_now : N;                       (* Date.now() *)
  toISOString : string                (* new Date().toISOString() *)
}.

(** ** Asynchronous computations: state and exceptions *)

Inductive outcome (A : Type) :=
| Returned (a : A)
| Thrown (error : string).
Arguments Returned {A} a.
Arguments Thrown {A} error.

Definition Async (A : Type) : Type := World -> World * outcome A.

Definition ret {A} (a : A) : Async A := fun w => (w, Returned a).

Definition throw {A} (error : string) : Async A := fun w => (w, Thrown error).

Definition bind {A B} (m : Async A) (k : A -> Async B) : Async B :=
  fun w =>
    match m w with
    | (w1, Returned a) => k a w1
    | (w1, Thrown e) => (w1, Thrown e)
    end.

(** [try { body } catch (error) { handler }]: the effects of [body] up to
    the throw are kept. *)
Definition try_catch {A} (body : Async A) (handler : string -> Async A) : Async A :=
  fun w =>
    match body w with
    | (w1, Returned a) => (w1, Returned a)
    | (w1, Thrown e) => handler e w1
    end.

(** [try { body } finally { final }] *)
Definition try_finally {A} (body : Async A) (final : Async unit) : Async A :=
  fun w =>
    match body w with
    | (w1, r) =>
        match final w1 with
        | (w2, Returned _) => (w2, r)
        | (w2, Thrown e) => (w2, Thrown e)
        end
    end.

Definition gets {A} (f : World -> A) : Async A := fun w => (w, Returned (f w)).

Definition modify (f : World -> World) : Async unit := fun w => (f w, Returned tt).

Declare Scope async_scope.
Delimit Scope async_scope with async.
Notation "x <- m ;; k" := (bind m (fun x => k))
  (at level 61, m at next level, right associativity) : async_scope.
Notation "m ;; k" := (bind m (fun _ => k))
  (at level 61, right associativity) : async_scope.
Open Scope async_scope.

(** The world an operation leaves, and how it ended. *)
Definition after {A} (m : Async A) (w : World) : World := fst (m w).
Definition result {A} (m : Async A) (w : World) : outcome A := snd (m w).

(** ** Updating the world *)

Definition with_audio (f : AudioState -> AudioState) (w : World) : World :=
  mkWorld (f (audio w)) (auth w) (storage w) (device w) (events w).
Definition with_auth (f : AuthState -> AuthState) (w : World) : World :=
  mkWorld (audio w) (f (auth w)) (storage w) (device w) (events w).
Definition with_storage (f : Storage -> Storage) (w : World) : World :=
  mkWorld (audio w) (auth w) (f (storage w)) (device w) (events w).
Definition with_device (f : Device -> Device) (w : World) : World :=
  mkWorld (audio w) (auth w) (storage w) (f (device w)) (events w).
Definition emit (e : Event) (w : World) : World :=
  mkWorld (audio w) (auth w) (storage w) (device w) (e :: events w).

Definition setRecordings (v : list Recording.t) : Async unit :=
  modify (with_audio (fun a =>
    mkAudioState v (currentRecording a) (isRecording a)
                 (currentSound a) (isPlaying a) (currentPlayingId a))).
Definition setCurrentRecording (v : option handle) : Async unit :=
  modify (with_audio (fun a =>
    mkAudioState (recordings a) v (isRecording a)
                 (currentSound a) (isPlaying a) (currentPlayingId a))).
Definition setIsRecording (v : bool) : Async unit :=
  modify (with_audio (fun a =>
    mkAudioState (recordings a) (currentRecording a) v
                 (currentSound a) (isPlaying a) (currentPlayingId a))).
Definition setCurrentSound (v : option handle) : Async unit :=
  modify (with_audio (fun a =>
    mkAudioState (recordings a) (currentRecording a) (isRecording a)
                 v (isPlaying a) (currentPlayingId a))).
Definition setIsPlaying (v : bool) : Async unit :=
  modify (with_audio (fun a =>
    mkAudioState (recordings a) (currentRecording a) (isRecording a)
                 (currentSound a) v (currentPlayingId a))).
Definition setCurrentPlayingId (v : option string) : Async unit :=
  modify (with_audio (fun a =>
    mkAudioState (recordings a) (currentRecording a) (isRecording a)
                 (currentSound a) (isPlaying a) v)).

Definition setUser (v : option User.t) : Async unit :=
  modify (with_auth (fun a => mkAuthState v (loading a))).
Definition setLoading (v : bool) : Async unit :=
  modify (with_auth (fun a => mkAuthState (user a) v)).

(** ** Collaborators *)

(** A promise of the platform: it rejects when the platform says so, and
    otherwise performs its effect. *)
Definition promise {A} (p : Platform) (c : Call) (failure : string)
    (effect : Async A) : Async A :=
  if rejects p c then throw failure else effect.

Definition console_error (message error : string) : Async unit :=
  modify (emit (ConsoleError message error)).

Definition Alert_alert (title message : string) : Async unit :=
  modify (emit (Alerted title message)).

Definition router_replace (path : string) : Async unit :=
  modify (emit (Navigated path)).

(** JavaScript truthiness of the values the source tests. *)
Definition truthy_string (s : string) : bool :=
  negb (String.eqb s EmptyString).

Definition truthy_item {A} (v : option (stored A)) : bool :=
  match v with
  | None => false
  | Some (Garbled raw) => truthy_string raw
  | Some (Json _) => true
  end.

Definition JSON_stringify {A} (a : A) : stored A := Json a.

(** [JSON.parse] of an item that passed the truthiness test. *)
Definition JSON_parse {A} (v : option (stored A)) : Async A :=
  match v with
  | Some (Json a) => ret a
  | _ => throw "SyntaxError"
  end.

Definition lookup {A} (k : Key A) (st : Storage) : option (stored A) :=
  match k in Key T return option (stored T) with
  | RECORDINGS_STORAGE_KEY => audioRecordings st
  | userData_key => userData st
  end.

Definition update {A} (k : Key A) (v : option (stored A)) (st : Storage) : Storage :=
  match k in Key T return option (stored T) -> Storage with
  | RECORDINGS_STORAGE_KEY => fun v => mkStorage v (userData st) (userToken st)
  | userData_key => fun v => mkStorage (audioRecordings st) v (userToken st)
  end v.

Definition AsyncStorage_getItem {A} (p : Platform) (k : Key A)
    : Async (option (stored A)) :=
  promise p getItem "AsyncStorage.getItem rejected"
    (modify (emit (ReadItem (key_name k))) ;;
     gets (fun w => lookup k (storage w))).

Definition AsyncStorage_setItem {A} (p : Platform) (k : Key A) (v : stored A)
    : Async unit :=
  promise p setItem "AsyncStorage.setItem rejected"
    (modify (with_storage (update k (Some v))) ;;
     modify (emit (WroteItem (key_name k)))).

Definition AsyncStorage_removeItem {A} (p : Platform) (k : Key A) : Async unit :=
  promise p removeItem "AsyncStorage.removeItem rejected"
    (modify (with_storage (update k None)) ;;
     modify (emit (RemovedItem (key_name k)))).

Definition set_token (v : option string) (st : Storage) : Storage :=
  mkStorage (audioRecordings st) (userData st) v.

Definition SecureStore_getItemAsync (p : Platform) : Async (option string) :=
  promise p getItemAsync "SecureStore.getItemAsync rejected"
    (modify (emit (SecureRead "userToken")) ;;
     gets (fun w => userToken (storage w))).

Definition SecureStore_setItemAsync (p : Platform) (v : string) : Async unit :=
  promise p setItemAsync "SecureStore.setItemAsync rejected"
    (modify (with_storage (set_token (Some v))) ;;
     modify (emit (SecureWrote "userToken"))).

Definition SecureStore_deleteItemAsync (p : Platform) : Async unit :=
  promise p deleteItemAsync "SecureStore.deleteItemAsync rejected"
    (modify (with_storage (set_token None)) ;;
     modify (emit (SecureDeleted "userToken"))).

Definition remove_handle (h : handle) (l : list handle) : list handle :=
  filter (fun h' => negb (Nat.eqb h' h)) l.

Definition remove_file (u : string) (l : list string) : list string :=
  filter (fun u' => negb (String.eqb u' u)) l.

Definition set_audioMode (m : AudioMode) (d : Device) : Device :=
  mkDevice m (openCaptures d) (openSounds d) (nextHandle d) (files d).
Definition set_openCaptures (l : list handle) (d : Device) : Device :=
  mkDevice (audioMode d) l (openSounds d) (nextHandle d) (files d).
Definition set_openSounds (l : list handle) (d : Device) : Device :=
  mkDevice (audioMode d) (openCaptures d) l (nextHandle d) (files d).
Definition set_nextHandle (n : handle) (d : Device) : Device :=
  mkDevice (audioMode d) (openCaptures d) (openSounds d) n (files d).
Definition set_files (l : list string) (d : Device) : Device :=
  mkDevice (audioMode d) (openCaptures d) (openSounds d) (nextHandle d) l.

Definition Audio_requestPermissionsAsync (p : Platform) : Async bool :=
  promise p requestPermissionsAsync "requestPermissionsAsync rejected"
    (modify (emit RequestedPermissions) ;;
     ret (granted p)).

Definition Audio_setAudioModeAsync (p : Platform) (m : AudioMode) : Async unit :=
  promise p setAudioModeAsync "setAudioModeAsync rejected"
    (modify (with_device (set_audioMode m)) ;;
     modify (emit (SetAudioMode m))).

(** [new Audio.Recording()]: a fresh object, nothing opened yet. *)
Definition new_Audio_Recording : Async handle :=
  h <- gets (fun w => nextHandle (device w)) ;;
  modify (with_device (set_nextHandle (S h))) ;;
  ret h.

Definition Recording_prepareToRecordAsync (p : Platform) (h : handle) : Async unit :=
  promise p prepareToRecordAsync "prepareToRecordAsync rejected"
    (modify (with_device (fun d => set_openCaptures (h :: openCaptures d) d)) ;;
     modify (emit (PreparedCapture h))).

Definition Recording_startAsync (p : Platform) (h : handle) : Async unit :=
  promise p startAsync "startAsync rejected"
    (modify (emit (StartedCapture h))).

(** Finalises the capture: the handle is released and the payload, when
    the capture has one, is on the filesystem. *)
Definition Recording_stopAndUnloadAsync (p : Platform) (h : handle) : Async unit :=
  promise p stopAndUnloadAsync "stopAndUnloadAsync rejected"
    (modify (with_device (fun d =>
       set_openCaptures (remove_handle h (openCaptures d)) d)) ;;
     match getURI p with
     | Some u => modify (with_device (fun d => set_files (u :: files d) d))
     | None => ret tt
     end ;;
     modify (emit (StoppedCapture h))).

Definition Recording_getStatusAsync (p : Platform) (h : handle) : Async (option Z) :=
  promise p getStatusAsync "getStatusAsync rejected"
    (ret (durationMillis p)).

(** [Audio.Sound.createAsync({ uri }, { shouldPlay: true })] *)
Definition Audio_Sound_createAsync (p : Platform) (u : string) : Async handle :=
  promise p createAsync "createAsync rejected"
    (h <- gets (fun w => nextHandle (device w)) ;;
     modify (with_device (fun d =>
       set_openSounds (h :: openSounds d) (set_nextHandle (S h) d))) ;;
     modify (emit (CreatedSound h u)) ;;
     ret h).

Definition Sound_stopAsync (p : Platform) (h : handle) : Async unit :=
  promise p stopAsync "stopAsync rejected"
    (modify (emit (StoppedSound h))).

Definition Sound_unloadAsync (p : Platform) (h : handle) : Async unit :=
  promise p unloadAsync "unloadAsync rejected"
    (modify (with_device (fun d =>
       set_openSounds (remove_handle h (openSounds d)) d)) ;;
     modify (emit (UnloadedSound h))).

(** [FileSystem.deleteAsync(uri, { idempotent: true })]: a payload that is
    already absent is not an error. *)
Definition FileSystem_deleteAsync (p : Platform) (u : string) : Async unit :=
  promise p deleteAsync "deleteAsync rejected"
    (modify (with_device (fun d => set_files (remove_file u (files d)) d)) ;;
     modify (emit (DeletedFile u))).

(** ** Small pieces of JavaScript *)

(** [n.toString()] and template interpolation of a natural number. *)
Definition Number_toString (n : N) : string :=
  NilEmpty.string_of_uint (N.to_uint n).

(** [email.split('@')[0]] *)
Fixpoint split_at_0 (s : string) : string :=
  match s with
  | EmptyString => EmptyString
  | String c rest =>
      if Ascii.eqb c "@"%char then EmptyString else String c (split_at_0 rest)
  end.

(** [status.durationMillis || 0] *)
Definition or_0 (v : option Z) : Z :=
  match v with
  | Some d => d
  | None => 0%Z
  end.

(** [rec.userId === user?.id] *)
Definition is_user (u : option User.t) (rec : Recording.t) : bool :=
  match u with
  | Some u => String.eqb (Recording.userId rec) (User.id u)
  | None => false
  end.

(** [r.id === recordingId] *)
Definition has_id (recordingId : string) (r : Recording.t) : bool :=
  String.eqb (Recording.id r) recordingId.

(** ** contexts/AudioContext.tsx *)

Definition loadRecordings (p : Platform) : Async unit :=
  try_catch
    (storedRecordings <- AsyncStorage_getItem p RECORDINGS_STORAGE_KEY ;;
     if truthy_item storedRecordings then
       parsedRecordings <- JSON_parse storedRecordings ;;
       user <- gets (fun w => user (auth w)) ;;
       setRecordings (filter (is_user user) parsedRecordings)
     else ret tt)
    (fun error =>
       console_error "Error loading recordings:" error ;;
       Alert_alert "Error" "Failed to load recordings").

Definition saveRecordings (p : Platform) (updatedRecordings : list Recording.t)
    : Async unit :=
  try_catch
    (storedRecordings <- AsyncStorage_getItem p RECORDINGS_STORAGE_KEY ;;
     otherUserRecordings <-
       (if truthy_item storedRecordings then
          allRecordings <- JSON_parse storedRecordings ;;
          user <- gets (fun w => user (auth w)) ;;
          ret (filter (fun rec => negb (is_user user rec)) allRecordings)
        else ret []) ;;
     AsyncStorage_setItem p RECORDINGS_STORAGE_KEY
       (JSON_stringify (otherUserRecordings ++ updatedRecordings)%list))
    (fun error =>
       console_error "Error saving recordings:" error ;;
       throw "Failed to save recordings").

Definition recording_mode : AudioMode :=
  {| allowsRecordingIOS := true; playsInSilentModeIOS := true |}.

Definition startRecording_body (p : Platform) : Async unit :=
  permission <- Audio_requestPermissionsAsync p ;;
  if negb permission then
    Alert_alert "Permission required"
                "Please grant microphone access to record audio."
  else
    Audio_setAudioModeAsync p recording_mode ;;
    newRecording <- new_Audio_Recording ;;
    Recording_prepareToRecordAsync p newRecording ;;
    Recording_startAsync p newRecording ;;
    setCurrentRecording (Some newRecording) ;;
    setIsRecording true.

Definition startRecording (p : Platform) : Async unit :=
  try_catch (startRecording_body p)
    (fun error =>
       console_error "Error starting recording:" error ;;
       Alert_alert "Error" "Failed to start recording").

(** The catalog entry [stopRecording] builds. *)
Definition newRecording (p : Platform) (uri : string) (status : option Z)
    (recordings : list Recording.t) (user : User.t) : Recording.t :=
  {| Recording.id := Number_toString (Date_now p);
     Recording.uri := uri;
     Recording.duration := or_0 status;
     Recording.title :=
       "Recording " ++ Number_toString (N.of_nat (length recordings + 1));
     Recording.createdAt := toISOString p;
     Recording.userId := User.id user |}.

Definition stopRecording_body (p : Platform) : Async unit :=
  currentRecording <- gets (fun w => currentRecording (audio w)) ;;
  user <- gets (fun w => user (auth w)) ;;
  match currentRecording, user with
  | Some capture, Some user =>
      Recording_stopAndUnloadAsync p capture ;;
      match getURI p with
      | Some uri =>
          if truthy_string uri then
            status <- Recording_getStatusAsync p capture ;;
            recordings <- gets (fun w => recordings (audio w)) ;;
            let updatedRecordings :=
              (recordings ++ [newRecording p uri status recordings user])%list in
            setRecordings updatedRecordings ;;
            saveRecordings p updatedRecordings ;;
            setCurrentRecording None ;;
            setIsRecording false
          else throw "No recording URI"
      | None => throw "No recording URI"
      end
  | _, _ => ret tt
  end.

Definition stopRecording (p : Platform) : Async unit :=
  try_catch (stopRecording_body p)
    (fun error =>
       console_error "Error stopping recording:" error ;;
       Alert_alert "Error" "Failed to stop recording").

Definition playRecording_body (p : Platform) (recordingId : string) : Async unit :=
  currentSound <- gets (fun w => currentSound (audio w)) ;;
  match currentSound with
  | Some sound => Sound_stopAsync p sound ;; Sound_unloadAsync p sound
  | None => ret tt
  end ;;
  recordings <- gets (fun w => recordings (audio w)) ;;
  match find (has_id recordingId) recordings with
  | None => throw "Recording not found"
  | Some recording =>
      sound <- Audio_Sound_createAsync p (Recording.uri recording) ;;
      setCurrentSound (Some sound) ;;
      setCurrentPlayingId (Some recordingId) ;;
      setIsPlaying true
  end.

Definition playRecording (p : Platform) (recordingId : string) : Async unit :=
  try_catch (playRecording_body p recordingId)
    (fun error =>
       console_error "Error playing recording:" error ;;
       Alert_alert "Error" "Failed to play recording").

(** The callback [playRecording] registers with
    [sound.setOnPlaybackStatusUpdate]; the platform calls it. *)
Record PlaybackStatus := mkPlaybackStatus {
  isLoaded : bool;
  status_isPlaying : bool;
  didJustFinish : bool
}.

Definition onPlaybackStatusUpdate (status : PlaybackStatus) : Async unit :=
  if isLoaded status then
    setIsPlaying (status_isPlaying status) ;;
    if didJustFinish status then
      setCurrentPlayingId None ;;
      setIsPlaying false
    else ret tt
  else ret tt.

Definition stopPlaying (p : Platform) : Async unit :=
  try_catch
    (currentSound <- gets (fun w => currentSound (audio w)) ;;
     match currentSound with
     | Some sound =>
         Sound_stopAsync p sound ;;
         Sound_unloadAsync p sound ;;
         setCurrentSound None ;;
         setCurrentPlayingId None ;;
         setIsPlaying false
     | None => ret tt
     end)
    (fun error =>
       console_error "Error stopping playback:" error ;;
       Alert_alert "Error" "Failed to stop playback").

(** [currentPlayingId === recordingId] *)
Definition is_playing_id (current : option string) (recordingId : string) : bool :=
  match current with
  | Some i => String.eqb i recordingId
  | None => false
  end.

Definition deleteRecording (p : Platform) (recordingId : string) : Async unit :=
  try_catch
    (currentPlayingId <- gets (fun w => currentPlayingId (audio w)) ;;
     (if is_playing_id currentPlayingId recordingId then stopPlaying p
      else ret tt) ;;
     recordings <- gets (fun w => recordings (audio w)) ;;
     match find (has_id recordingId) recordings with
     | None => ret tt
     | Some recording =>
         FileSystem_deleteAsync p (Recording.uri recording) ;;
         let updatedRecordings :=
           filter (fun r => negb (has_id recordingId r)) recordings in
         setRecordings updatedRecordings ;;
         saveRecordings p updatedRecordings
     end)
    (fun error =>
       console_error "Error deleting recording:" error ;;
       Alert_alert "Error" "Failed to delete recording").

Definition updateRecordingTitle (p : Platform) (recordingId newTitle : string)
    : Async unit :=
  try_catch
    (recordings <- gets (fun w => recordings (audio w)) ;;
     let updatedRecordings :=
       map (fun recording =>
              if has_id recordingId recording
              then Recording.with_title newTitle recording
              else recording) recordings in
     setRecordings updatedRecordings ;;
     saveRecordings p updatedRecordings)
    (fun error =>
       console_error "Error updating recording title:" error ;;
       Alert_alert "Error" "Failed to update recording title").

(** ** contexts/AuthContext.tsx *)

Definition default_settings : Settings :=
  {| theme := light; notifications := true; cloudSync := false |}.

Definition checkAuthState (p : Platform) : Async unit :=
  try_finally
    (try_catch
       (token <- SecureStore_getItemAsync p ;;
        match token with
        | Some t =>
            if truthy_string t then
              userData <- AsyncStorage_getItem p userData_key ;;
              if truthy_item userData then
                parsed <- JSON_parse userData ;;
                setUser (Some parsed) ;;
                router_replace "/(tabs)"
              else ret tt
            else router_replace "/login"
        | None => router_replace "/login"
        end)
       (fun error => console_error "Auth state check failed:" error))
    (setLoading false).

(** The profile [login] fabricates. *)
Definition login_userData (email : string) : User.t :=
  {| User.id := "user123";
     User.email := email;
     User.name := split_at_0 email;
     User.settings := default_settings |}.

Definition login (p : Platform) (email password : string) : Async unit :=
  let userData := login_userData email in
  SecureStore_setItemAsync p "dummy-token" ;;
  AsyncStorage_setItem p userData_key (JSON_stringify userData) ;;
  setUser (Some userData).

Definition register (p : Platform) (email password name : string) : Async unit :=
  let userData :=
    {| User.id := "user" ++ Number_toString (Date_now p);
       User.email := email;
       User.name := name;
       User.settings := default_settings |} in
  SecureStore_setItemAsync p "dummy-token" ;;
  AsyncStorage_setItem p userData_key (JSON_stringify userData) ;;
  setUser (Some userData).

Definition logout (p : Platform) : Async unit :=
  SecureStore_deleteItemAsync p ;;
  AsyncStorage_removeItem p userData_key ;;
  setUser None ;;
  router_replace "/login".

Definition updateUserSettings (p : Platform) (settings : Settings) : Async unit :=
  user <- gets (fun w => user (auth w)) ;;
  match user with
  | None => ret tt
  | Some user =>
      let updatedUser :=
        User.mk (User.id user) (User.email user) (User.name user) settings in
      AsyncStorage_setItem p userData_key (JSON_stringify updatedUser) ;;
      setUser (Some updatedUser)
  end.

(** ** Start-up *)

(** The [useState] initial values of [AudioProvider] and [AuthProvider]. *)
Definition initial_audio : AudioState :=
  {| recordings := []; currentRecording := None; isRecording := false;
     currentSound := None; isPlaying := false; currentPlayingId := None |}.

Definition initial_auth : AuthState := {| user := None; loading := true |}.

(** The application starts again: what is persisted stays, the component
    state is fresh and the device holds no handle. *)
Definition restart (w : World) : World :=
  {| audio := initial_audio;
     auth := initial_auth;
     storage := storage w;
     device := set_openSounds [] (set_openCaptures [] (device w));
     events := events w |}.

(** The [useEffect] of [AudioProvider] that runs when [user] changes. *)
Definition on_user_change (p : Platform) : Async unit :=
  user <- gets (fun w => user (auth w)) ;;
  match user with
  | Some _ => loadRecordings p
  | None => ret tt
  end.

(** ** Vocabulary of the specification *)

(** The spec's [saveForUser] and [loadForUser]: [saveRecordings] and
    [loadRecordings] run in a session whose user is [u]; what
    [loadForUser] returns is the catalog the provider then exposes. *)
Definition saveForUser (p : Platform) (u : User.t) (rs : list Recording.t)
    : Async unit :=
  setUser (Some u) ;; saveRecordings p rs.

Definition loadForUser (p : Platform) (u : User.t) : Async (list Recording.t) :=
  setUser (Some u) ;; loadRecordings p ;; gets (fun w => recordings (audio w)).

(** A sequence of saves, each by its own user, one after the other. *)
Fixpoint saves (p : Platform) (calls : list (User.t * list Recording.t))
    : Async unit :=
  match calls with
  | [] => ret tt
  | (u, rs) :: rest => saveForUser p u rs ;; saves p rest
  end.

(** What the user called [uid] saved last in [calls], if anything. *)
Fixpoint last_saved (uid : string) (calls : list (User.t * list Recording.t))
    : option (list Recording.t) :=
  match calls with
  | [] => None
  | (u, rs) :: rest =>
      match last_saved uid rest with
      | Some later => Some later
      | None => if String.eqb (User.id u) uid then Some rs else None
      end
  end.

(** A recording belongs to the user [u]. *)
Definition owns (u : User.t) (r : Recording.t) : Prop :=
  Recording.userId r = User.id u.

Definition owned_by (uid : string) (r : Recording.t) : bool :=
  String.eqb (Recording.userId r) uid.

(** The entries [JSON.parse] finds in the blob; none when there is no
    readable blob. *)
Definition blob_entries (w : World) : list Recording.t :=
  match audioRecordings (storage w) with
  | Some (Json all) => all
  | _ => []
  end.

(** The entries of the persisted blob that belong to [uid]. *)
Definition persisted_for (uid : string) (w : World) : list Recording.t :=
  match audioRecordings (storage w) with
  | Some (Json all) => filter (owned_by uid) all
  | _ => []
  end.

(** The blob is absent, empty, or parses. *)
Definition blob_readable (w : World) : Prop :=
  match audioRecordings (storage w) with
  | Some (Garbled raw) => raw = EmptyString
  | _ => True
  end.

(** The world a successful [saveRecordings] leaves. *)
Definition saved (rs : list Recording.t) (w : World) : World :=
  emit (WroteItem "audioRecordings")
    (with_storage
       (update RECORDINGS_STORAGE_KEY
          (Some (Json (filter (fun rec => negb (is_user (user (auth w)) rec))
                              (blob_entries w) ++ rs)%list)))
       (emit (ReadItem "audioRecordings") w)).

(** [new] is [old] after [updateRecordingTitle recordingId newTitle]: an
    entry called [recordingId] differs from before in its title only, any
    other entry not at all. *)
Definition renamed (recordingId newTitle : string) (old new : Recording.t) : Prop :=
  (Recording.id old = recordingId ->
     Recording.title new = newTitle /\
     Recording.id new = Recording.id old /\
     Recording.uri new = Recording.uri old /\
     Recording.duration new = Recording.duration old /\
     Recording.createdAt new = Recording.createdAt old /\
     Recording.userId new = Recording.userId old) /\
  (Recording.id old <> recordingId -> new = old).

(** The function [updateRecordingTitle] maps over the catalog. *)
Definition retitle (recordingId newTitle : string) (recording : Recording.t)
    : Recording.t :=
  if has_id recordingId recording
  then Recording.with_title newTitle recording
  else recording.

(** The session of section 4.2 is [Unauthenticated] when no user is held. *)
Definition unauthenticated (a : AuthState) : Prop := user a = None.

(** The session states of sections 4.3 and 4.4. *)
Definition capture_idle (a : AudioState) : Prop :=
  currentRecording a = None /\ isRecording a = false.

Definition playback_idle (a : AudioState) : Prop :=
  currentSound a = None /\ currentPlayingId a = None /\ isPlaying a = false.

Definition playing (a : AudioState) (recordingId : string) (sound : handle) : Prop :=
  currentSound a = Some sound /\ currentPlayingId a = Some recordingId /\
  isPlaying a = true.

(** No sound handle is open besides the one the session holds. *)
Definition sounds_tracked (w : World) : Prop :=
  openSounds (device w) = [] \/
  exists sound, currentSound (audio w) = Some sound /\
                openSounds (device w) = [sound].

(** What [playRecording] asks of the device before it opens a sound. *)
Definition released (current : option handle) : list Event :=
  match current with
  | Some old => [UnloadedSound old; StoppedSound old]
  | None => []
  end.

(** ** Sample platforms and worlds *)

(** The status the device reports when a loaded sound has been stopped. *)
Definition stopped_status : PlaybackStatus :=
  {| isLoaded := true; status_isPlaying := false; didJustFinish := false |}.

(** Every call resolves; the capture lasted 1500 ms. *)
Definition resolving : Platform :=
  {| rejects := fun _ => false;
     granted := true;
     getURI := Some "file:///cache/recording-1.m4a";
     durationMillis := Some 1500%Z;
     Date_now := 1700000000000%N;
     toISOString := "2023-11-14T22:13:20.000Z" |}.

(** The same, but [AsyncStorage.setItem] rejects. *)
Definition store_full : Platform :=
  {| rejects := fun c => match c with setItem => true | _ => false end;
     granted := true;
     getURI := Some "file:///cache/recording-1.m4a";
     durationMillis := Some 1500%Z;
     Date_now := 1700000000000%N;
     toISOString := "2023-11-14T22:13:20.000Z" |}.

(** Every call resolves, 500 seconds later. *)
Definition later : Platform :=
  {| rejects := fun _ => false;
     granted := true;
     getURI := None;
     durationMillis := None;
     Date_now := 1700000500000%N;
     toISOString := "2023-11-14T22:21:40.000Z" |}.

Definition alice : User.t := login_userData "a@x.com".

Definition bob : User.t :=
  {| User.id := "user1700000500000"; User.email := "b@x.com";
     User.name := "Bob"; User.settings := default_settings |}.

Definition fresh_install : World :=
  {| audio := initial_audio;
     auth := initial_auth;
     storage := {| audioRecordings := None; userData := None; userToken := None |};
     device := {| audioMode := mkAudioMode false false; openCaptures := [];
                  openSounds := []; nextHandle := 0; files := [] |};
     events := [] |}.

Definition signed_in (u : User.t) (w : World) : World :=
  with_auth (fun _ => {| user := Some u; loading := false |}) w.

Definition take (i t u owner : string) : Recording.t :=
  {| Recording.id := i; Recording.uri := u; Recording.duration := 1500%Z;
     Recording.title := t; Recording.createdAt := "2023-11-14T22:13:20.000Z";
     Recording.userId := owner |}.

Definition alice_take : Recording.t :=
  take "1700000000000" "Recording 1" "file:///cache/recording-1.m4a" "user123".

Definition bob_take : Recording.t :=
  take "1700000600000" "Recording 1" "file:///cache/recording-2.m4a"
       "user1700000500000".

(** The session of [u] with the catalog [rs], loaded and persisted. *)
Definition library (u : User.t) (rs : list Recording.t) : World :=
  {| audio := {| recordings := rs; currentRecording := None; isRecording := false;
                 currentSound := None; isPlaying := false;
                 currentPlayingId := None |};
     auth := {| user := Some u; loading := false |};
     storage := {| audioRecordings := Some (Json rs); userData := Some (Json u);
                   userToken := Some "dummy-token" |};
     device := {| audioMode := mkAudioMode false false; openCaptures := [];
                  openSounds := []; nextHandle := 0;
                  files := map Recording.uri rs |};
     events := [] |}.

Definition interleaved : list (User.t * list Recording.t) :=
  [ (alice, [alice_take]);
    (bob, [bob_take]);
    (alice, [alice_take; take "1700000700000" "Recording 2"
                              "file:///cache/recording-3.m4a" "user123"]);
    (bob, []) ].

(** Alice's session while the capture that [startRecording] opened runs. *)
Definition capturing : World :=
  after (startRecording resolving) (signed_in alice fresh_install).

(** Alice listens to her take: one sound handle, handle 0, is open. *)
Definition listening : World :=
  after (playRecording resolving "1700000000000") (library alice [alice_take]).

(** Bob's session, opened while the provider still holds what Alice
    recorded and nothing is persisted under the catalog key. *)
Definition left_behind : World :=
  {| audio := {| recordings := [alice_take]; currentRecording := None;
                 isRecording := false; currentSound := None;
                 isPlaying := false; currentPlayingId := None |};
     auth := {| user := Some bob; loading := false |};
     storage := {| audioRecordings := None; userData := Some (Json bob);
                   userToken := Some "dummy-token" |};
     device := {| audioMode := recording_mode; openCaptures := [];
                  openSounds := []; nextHandle := 1;
                  files := ["file:///cache/recording-1.m4a"] |};
     events := [] |}.

(** The catalog key holds text that [JSON.parse] rejects. *)
Definition corrupted (w : World) : World :=
  with_storage
    (update RECORDINGS_STORAGE_KEY (Some (Garbled "[{id:"))) w.

(** How a state like [left_behind] comes about: Alice records a take whose
    save the store rejects, logs out, and Bob registers on the same
    device. *)
Definition handover : Async unit :=
  startRecording resolving ;;
  stopRecording store_full ;;
  logout resolving ;;
  register later "b@x.com" "secret" "Bob" ;;
  on_user_change later.

(** ** Sessions *)

(** What the screens can ask of [AudioProvider] through [useAudio], and
    what the provider is told by React and by the device: the six exported
    operations, the load its [useEffect] runs when the user changes, and
    the playback status callback. *)
Inductive Action :=
| StartRecording
| StopRecording
| PlayRecording (recordingId : string)
| StopPlaying
| DeleteRecording (recordingId : string)
| UpdateRecordingTitle (recordingId newTitle : string)
| UserChanged
| PlaybackStatusUpdate (status : PlaybackStatus).

Definition perform (p : Platform) (a : Action) : Async unit :=
  match a with
  | StartRecording => startRecording p
  | StopRecording => stopRecording p
  | PlayRecording recordingId => playRecording p recordingId
  | StopPlaying => stopPlaying p
  | DeleteRecording recordingId => deleteRecording p recordingId
  | UpdateRecordingTitle recordingId newTitle =>
      updateRecordingTitle p recordingId newTitle
  | UserChanged => on_user_change p
  | PlaybackStatusUpdate status => onPlaybackStatusUpdate status
  end.

(** Actions taken one after the other, each with what the platform
    answered while it ran. *)
Fixpoint session (steps : list (Platform * Action)) : Async unit :=
  match steps with
  | [] => ret tt
  | (p, a) :: rest => perform p a ;; session rest
  end.

(** The key-value store answers during a step. *)
Definition store_resolves (p : Platform) : Prop :=
  rejects p getItem = false /\ rejects p setItem = false.

(** The catalog the provider shows is what is persisted for its user. *)
Definition in_sync (u : User.t) (w : World) : Prop :=
  user (auth w) = Some u /\
  recordings (audio w) = persisted_for (User.id u) w.

(** The catalog holds recordings of the session's user only. *)
Definition catalog_owned (u : User.t) (w : World) : Prop :=
  user (auth w) = Some u /\ Forall (owns u) (recordings (audio w)).

(** The session cells agree with each other: the recording flag is up
    exactly while a capture handle is held, and an id is tracked as
    playing only while a sound handle is held. *)
Definition cells_consistent (a : AudioState) : Prop :=
  (isRecording a = true <-> currentRecording a <> None) /\
  (currentPlayingId a <> None -> currentSound a <> None).

(** How one action may change the catalog: a recording of the user is
    appended, entries are filtered out, or entries are retitled. *)
Definition changed (u : User.t) (old new : list Recording.t) : Prop :=
  (exists entry, owns u entry /\ new = (old ++ [entry])%list) \/
  (exists f, new = filter f old) \/
  (exists recordingId newTitle, new = map (retitle recordingId newTitle) old).

(** What one action does to the catalog and to the blob, in a session of
    user [u]: nothing; a load of the user's persisted entries; a change
    that is saved, the blob becoming the other users' entries followed by
    the new catalog; or a change whose save fails, the blob staying as
    it is. *)
Inductive catalog_step (u : User.t) (p : Platform) (w w' : World) : Prop :=
| step_same :
    recordings (audio w') = recordings (audio w) ->
    audioRecordings (storage w') = audioRecordings (storage w) ->
    catalog_step u p w w'
| step_loaded (all : list Recording.t) :
    audioRecordings (storage w) = Some (Json all) ->
    recordings (audio w') = filter (owned_by (User.id u)) all ->
    audioRecordings (storage w') = audioRecordings (storage w) ->
    catalog_step u p w w'
| step_saved :
    changed u (recordings (audio w)) (recordings (audio w')) ->
    audioRecordings (storage w')
    = Some (Json (filter (fun rec => negb (is_user (Some u) rec)) (blob_entries w)
                  ++ recordings (audio w'))%list) ->
    catalog_step u p w w'
| step_unsaved :
    changed u (recordings (audio w)) (recordings (audio w')) ->
    audioRecordings (storage w') = audioRecordings (storage w) ->
    (store_resolves p -> ~ blob_readable w) ->
    catalog_step u p w w'.

(** The profile [register] fabricates. *)
Definition register_userData (p : Platform) (email name : string) : User.t :=
  {| User.id := "user" ++ Number_toString (Date_now p);
     User.email := email;
     User.name := name;
     User.settings := default_settings |}.

(** [{ ...user, settings }] *)
Definition with_settings (settings : Settings) (user : User.t) : User.t :=
  User.mk (User.id user) (User.email user) (User.name user) settings.

(** The session of section 4.2 is [Authenticated(u)]. *)
Definition authenticated (u : User.t) (a : AuthState) : Prop := user a = Some u.

(** Bob's clock and device: every call resolves. *)
Definition bobs_phone : Platform :=
  {| rejects := fun _ => false;
     granted := true;
     getURI := Some "file:///cache/recording-2.m4a";
     durationMillis := Some 2500%Z;
     Date_now := 1700000600000%N;
     toISOString := "2023-11-14T22:23:20.000Z" |}.

(** The profile store rejects the write, the token store accepts it. *)
Definition profile_store_full : Platform :=
  {| rejects := fun c => match c with setItem => true | _ => false end;
     granted := true;
     getURI := None;
     durationMillis := None;
     Date_now := 1700000000000%N;
     toISOString := "2023-11-14T22:13:20.000Z" |}.

(** Alice's phone also holds what Bob persisted earlier. *)
Definition shared_phone : World :=
  with_storage
    (update RECORDINGS_STORAGE_KEY (Some (Json [bob_take; alice_take])))
    (library alice [alice_take]).

(** Alice records, listens, renames while the store rejects the write,
    and deletes. *)
Definition evening : list (Platform * Action) :=
  [ (resolving, StartRecording);
    (later, StopRecording);
    (resolving, PlayRecording "1700000000000");
    (store_full, UpdateRecordingTitle "1700000000000" "My Take");
    (resolving, PlaybackStatusUpdate stopped_status);
    (resolving, DeleteRecording "1700000000000") ].

(** The same evening with a store that answers. *)
Definition quiet_evening : list (Platform * Action) :=
  [ (resolving, StartRecording);
    (resolving, StopRecording);
    (resolving, PlayRecording "1700000000000");
    (resolving, UpdateRecordingTitle "1700000000000" "My Take");
    (resolving, StopPlaying) ].

(** Bob's session on a phone where the load at the user change could
    not read the store: the provider still holds Alice's take, which is
    persisted too. *)
Definition unread_handover : World :=
  {| audio := {| recordings := [alice_take]; currentRecording := None;
                 isRecording := false; currentSound := None;
                 isPlaying := false; currentPlayingId := None |};
     auth := {| user := Some bob; loading := false |};
     storage := {| audioRecordings := Some (Json [alice_take]);
                   userData := Some (Json bob);
                   userToken := Some "dummy-token" |};
     device := {| audioMode := mkAudioMode false false; openCaptures := [];
                  openSounds := []; nextHandle := 1;
                  files := ["file:///cache/recording-1.m4a"] |};
     events := [] |}.

(** Every call resolves but [AsyncStorage.getItem]. *)
Definition store_unreadable : Platform :=
  {| rejects := fun c => match c with getItem => true | _ => false end;
     granted := true;
     getURI := None;
     durationMillis := None;
     Date_now := 1700000500000%N;
     toISOString := "2023-11-14T22:21:40.000Z" |}.

(** How a state like [unread_handover] comes about. *)
Definition unread_handover_steps : Async unit :=
  logout resolving ;;
  register later "b@x.com" "secret" "Bob" ;;
  on_user_change store_unreadable.

(** ** Proof support *)

Ltac unfold_async :=
  cbv beta iota zeta delta [after result try_catch try_finally bind ret throw gets modify
    promise console_error Alert_alert router_replace
    setRecordings setCurrentRecording setIsRecording setCurrentSound
    setIsPlaying setCurrentPlayingId setUser setLoading
    AsyncStorage_getItem AsyncStorage_setItem AsyncStorage_removeItem
    SecureStore_getItemAsync SecureStore_setItemAsync SecureStore_deleteItemAsync
    Audio_requestPermissionsAsync Audio_setAudioModeAsync new_Audio_Recording
    Recording_prepareToRecordAsync Recording_startAsync
    Recording_stopAndUnloadAsync Recording_getStatusAsync
    Audio_Sound_createAsync Sound_stopAsync Sound_unloadAsync
    FileSystem_deleteAsync JSON_stringify] in *.

Lemma truthy_string_false (s : string) : truthy_string s = false <-> s = EmptyString.
Proof.
  unfold truthy_string. rewrite negb_false_iff. apply String.eqb_eq.
Qed.

Lemma truthy_string_true (s : string) : truthy_string s = true <-> s <> EmptyString.
Proof.
  unfold truthy_string. rewrite negb_true_iff. apply String.eqb_neq.
Qed.

Lemma find_has_id_none (recordingId : string) (l : list Recording.t) :
  ~ In recordingId (map Recording.id l) -> find (has_id recordingId) l = None.
Proof.
  induction l as [|r l IH]; simpl; intros H; [reflexivity|].
  unfold has_id at 1. destruct (String.eqb_spec (Recording.id r) recordingId) as [E|E].
  - exfalso. apply H. now left.
  - apply IH. intros HIn. apply H. now right.
Qed.

Lemma is_playing_id_false (current : option string) (recordingId : string) :
  current <> Some recordingId -> is_playing_id current recordingId = false.
Proof.
  destruct current as [i|]; simpl; intros H; [|reflexivity].
  apply String.eqb_neq. congruence.
Qed.

(** ** Properties *)

(** *** Calls that do nothing *)

(** C5. When no capture handle is active, [stopRecording] is a no-op: the
    whole world (session cells, catalog, persisted blob, device, events)
    is what it was, and the call returns normally. *)
Theorem stopRecording_without_capture_is_noop (p : Platform) (w : World) :
  currentRecording (audio w) = None ->
  stopRecording p w = (w, Returned tt).
Proof.
  intros H. unfold stopRecording, stopRecording_body. unfold_async.
  rewrite H. reflexivity.
Qed.

Lemma stopRecording_without_capture_is_noop_witness :
  currentRecording (audio (signed_in alice fresh_install)) = None /\
  stopRecording resolving (signed_in alice fresh_install)
    = (signed_in alice fresh_install, Returned tt).
Proof.
  split; [reflexivity|].
  apply stopRecording_without_capture_is_noop. reflexivity.
Defined.

(** C10. For an id that is not in the catalog and is not the id being
    played, [deleteRecording] returns normally and leaves the whole world
    unchanged: no notice, no file deletion, same catalog, same blob. *)
Theorem deleteRecording_absent_is_noop (p : Platform) (w : World)
    (recordingId : string) :
  ~ In recordingId (map Recording.id (recordings (audio w))) ->
  currentPlayingId (audio w) <> Some recordingId ->
  deleteRecording p recordingId w = (w, Returned tt).
Proof.
  intros Habsent Hplay. unfold deleteRecording. unfold_async.
  rewrite (is_playing_id_false _ _ Hplay).
  rewrite (find_has_id_none _ _ Habsent). reflexivity.
Qed.

Lemma deleteRecording_absent_is_noop_witness :
  deleteRecording resolving "1600000000000" (library alice [alice_take])
    = (library alice [alice_take], Returned tt).
Proof.
  apply deleteRecording_absent_is_noop.
  - simpl. intros [H|[]]. discriminate H.
  - simpl. discriminate.
Defined.

(** *** The catalog store *)

Lemma persisted_for_entries (uid : string) (w : World) :
  persisted_for uid w = filter (owned_by uid) (blob_entries w).
Proof.
  unfold persisted_for, blob_entries.
  destruct (audioRecordings (storage w)) as [[raw|all]|]; reflexivity.
Qed.

Lemma saveRecordings_resolves (p : Platform) (rs : list Recording.t) (w : World) :
  rejects p getItem = false ->
  rejects p setItem = false ->
  blob_readable w ->
  saveRecordings p rs w = (saved rs w, Returned tt).
Proof.
  intros Hget Hset Hblob. unfold saveRecordings, saved, blob_entries. unfold_async.
  rewrite Hget. cbn. unfold blob_readable in Hblob.
  destruct (audioRecordings (storage w)) as [[raw|all]|]; cbn.
  - subst raw. cbn. rewrite Hset. reflexivity.
  - rewrite Hset. reflexivity.
  - rewrite Hset. reflexivity.
Qed.

Lemma saveRecordings_returned (p : Platform) (rs : list Recording.t)
    (w w' : World) :
  saveRecordings p rs w = (w', Returned tt) ->
  blob_readable w /\ w' = saved rs w.
Proof.
  unfold saveRecordings, saved, blob_entries, blob_readable. unfold_async.
  destruct (rejects p getItem); cbn; [discriminate|].
  destruct (audioRecordings (storage w)) as [[raw|all]|]; cbn.
  - destruct (truthy_string raw) eqn:Hraw; cbn; [discriminate|].
    apply truthy_string_false in Hraw.
    destruct (rejects p setItem); cbn; [discriminate|].
    intros H. injection H as <-. split; [exact Hraw | reflexivity].
  - destruct (rejects p setItem); cbn; [discriminate|].
    intros H. injection H as <-. split; [exact I | reflexivity].
  - destruct (rejects p setItem); cbn; [discriminate|].
    intros H. injection H as <-. split; [exact I | reflexivity].
Qed.

Lemma saved_entries (rs : list Recording.t) (w : World) :
  blob_entries (saved rs w)
  = (filter (fun rec => negb (is_user (user (auth w)) rec)) (blob_entries w)
     ++ rs)%list.
Proof. reflexivity. Qed.

Lemma saved_auth (rs : list Recording.t) (w : World) :
  auth (saved rs w) = auth w.
Proof. reflexivity. Qed.

Lemma filter_filter {A} (f g : A -> bool) (l : list A) :
  filter f (filter g l) = filter (fun x => f x && g x) l.
Proof.
  induction l as [|x l IH]; simpl; [reflexivity|].
  destruct (g x); simpl; destruct (f x); simpl; rewrite IH; reflexivity.
Qed.

Lemma filter_all {A} (f : A -> bool) (l : list A) :
  Forall (fun x => f x = true) l -> filter f l = l.
Proof.
  induction 1 as [|x l Hx _ IH]; simpl; [reflexivity|].
  rewrite Hx, IH. reflexivity.
Qed.

Lemma filter_none {A} (f : A -> bool) (l : list A) :
  Forall (fun x => f x = false) l -> filter f l = [].
Proof.
  induction 1 as [|x l Hx _ IH]; simpl; [reflexivity|].
  rewrite Hx, IH. reflexivity.
Qed.

(** One save by [u] of recordings of their own: afterwards [u]'s persisted
    entries are the saved ones, and anybody else's are what they were. *)
Lemma saved_persisted (u : User.t) (rs : list Recording.t) (w : World)
    (uid : string) :
  user (auth w) = Some u ->
  Forall (owns u) rs ->
  persisted_for uid (saved rs w)
  = if String.eqb (User.id u) uid then rs else persisted_for uid w.
Proof.
  intros Hu Hown. rewrite !persisted_for_entries, saved_entries, Hu.
  rewrite filter_app, filter_filter.
  destruct (String.eqb_spec (User.id u) uid) as [E|E].
  - subst uid. rewrite filter_none, filter_all; [reflexivity| |].
    + eapply Forall_impl; [|exact Hown]. intros r Hr.
      unfold owned_by. apply String.eqb_eq. exact Hr.
    + apply Forall_forall. intros r _. unfold owned_by, is_user.
      destruct (Recording.userId r =? User.id u)%string; reflexivity.
  - rewrite (filter_none _ rs), app_nil_r.
    + apply filter_ext_in. intros r _. unfold owned_by, is_user.
      destruct (String.eqb_spec (Recording.userId r) uid) as [E1|E1];
        [|reflexivity].
      destruct (String.eqb_spec (Recording.userId r) (User.id u)) as [E2|E2];
        [congruence|reflexivity].
    + eapply Forall_impl; [|exact Hown]. intros r Hr.
      unfold owned_by. apply String.eqb_neq. unfold owns in Hr. congruence.
Qed.

Lemma saveForUser_returned (p : Platform) (u : User.t) (rs : list Recording.t)
    (w w' : World) :
  saveForUser p u rs w = (w', Returned tt) ->
  w' = saved rs (with_auth (fun a => mkAuthState (Some u) (loading a)) w).
Proof.
  unfold saveForUser. unfold bind at 1. unfold setUser, modify.
  intros H. apply saveRecordings_returned in H. apply H.
Qed.

Lemma saves_persisted (p : Platform) (calls : list (User.t * list Recording.t)) :
  forall w w',
    Forall (fun c => Forall (owns (fst c)) (snd c)) calls ->
    saves p calls w = (w', Returned tt) ->
    forall uid,
      persisted_for uid w'
      = match last_saved uid calls with
        | Some rs => rs
        | None => persisted_for uid w
        end.
Proof.
  induction calls as [|[u rs] rest IH]; intros w w' Hown Hrun uid.
  - cbn in Hrun. injection Hrun as <-. reflexivity.
  - inversion Hown as [|c l Hrs Hrest]; subst. cbn [fst snd] in Hrs.
    cbn [saves] in Hrun. unfold bind in Hrun at 1.
    destruct (saveForUser p u rs w) as [w1 [[]|e]] eqn:Hsave; [|discriminate].
    apply saveForUser_returned in Hsave.
    rewrite (IH _ _ Hrest Hrun uid). cbn [last_saved].
    destruct (last_saved uid rest) as [later|]; [reflexivity|].
    subst w1. rewrite (saved_persisted u); [|reflexivity|exact Hrs].
    destruct (User.id u =? uid)%string; reflexivity.
Qed.

Lemma saves_leave_json (p : Platform) (calls : list (User.t * list Recording.t)) :
  forall w w',
    calls <> [] ->
    saves p calls w = (w', Returned tt) ->
    exists all, audioRecordings (storage w') = Some (Json all).
Proof.
  induction calls as [|[u rs] rest IH]; intros w w' Hne Hrun; [congruence|].
  cbn [saves] in Hrun. unfold bind in Hrun at 1.
  destruct (saveForUser p u rs w) as [w1 [[]|e]] eqn:Hsave; [|discriminate].
  destruct rest as [|c rest'].
  - cbn in Hrun. injection Hrun as <-.
    apply saveForUser_returned in Hsave. subst w1. eexists. reflexivity.
  - apply (IH w1 w'); [discriminate|exact Hrun].
Qed.

Lemma loadForUser_json (p : Platform) (u : User.t) (w : World)
    (all : list Recording.t) :
  rejects p getItem = false ->
  audioRecordings (storage w) = Some (Json all) ->
  result (loadForUser p u) w = Returned (persisted_for (User.id u) w).
Proof.
  intros Hget Hblob. unfold loadForUser, loadRecordings, persisted_for.
  unfold_async. rewrite Hget. cbn. rewrite Hblob. reflexivity.
Qed.

(** C1. Two distinct users save their own recordings in any interleaving,
    and every save goes through.  Then [loadForUser] gives each of them
    exactly the sequence they saved last, and the persisted entries of
    whoever did not save (a third user, or one of the two who made no
    call) are what they were before the first save. *)
Theorem saves_round_trip_and_isolation (p p' : Platform) (u1 u2 : User.t)
    (calls : list (User.t * list Recording.t)) (w w' : World) :
  User.id u1 <> User.id u2 ->
  Forall (fun c => (fst c = u1 \/ fst c = u2) /\ Forall (owns (fst c)) (snd c))
         calls ->
  saves p calls w = (w', Returned tt) ->
  rejects p' getItem = false ->
  (forall u rs,
      u = u1 \/ u = u2 ->
      last_saved (User.id u) calls = Some rs ->
      result (loadForUser p' u) w' = Returned rs) /\
  (forall uid,
      last_saved uid calls = None ->
      persisted_for uid w' = persisted_for uid w).
Proof.
  intros _ Hcalls Hrun Hget.
  assert (Hown : Forall (fun c => Forall (owns (fst c)) (snd c)) calls).
  { eapply Forall_impl; [|exact Hcalls]. intros c [_ H]. exact H. }
  split.
  - intros u rs _ Hlast.
    destruct (saves_leave_json p calls w w') as [all Hall]; [|exact Hrun|].
    { intros ->. discriminate Hlast. }
    rewrite (loadForUser_json p' u w' all Hget Hall).
    rewrite (saves_persisted p calls w w' Hown Hrun), Hlast. reflexivity.
  - intros uid Hlast.
    rewrite (saves_persisted p calls w w' Hown Hrun), Hlast. reflexivity.
Qed.

Lemma saves_round_trip_and_isolation_witness :
  result (loadForUser resolving alice)
         (after (saves resolving interleaved) fresh_install)
    = Returned [alice_take; take "1700000700000" "Recording 2"
                                 "file:///cache/recording-3.m4a" "user123"]
  /\ result (loadForUser resolving bob)
            (after (saves resolving interleaved) fresh_install)
    = Returned [].
Proof.
  destruct (saves_round_trip_and_isolation resolving resolving alice bob
              interleaved fresh_install
              (after (saves resolving interleaved) fresh_install))
    as [Hload _].
  - discriminate.
  - repeat (apply Forall_cons || apply Forall_nil);
      (split; [ (left; reflexivity) || (right; reflexivity)
              | repeat (apply Forall_cons || apply Forall_nil); reflexivity ]).
  - vm_compute. reflexivity.
  - reflexivity.
  - split; apply Hload;
      solve [left; reflexivity | right; reflexivity | vm_compute; reflexivity].
Defined.

(** *** Loading *)

(** The claim of C6 fails where the catalog is not already empty: with the
    blob absent, and with a blob [JSON.parse] rejects, [loadForUser] for
    Bob yields Alice's recording, which the provider held before.  It
    does so too when the blob is there and well-formed but the store
    rejects the read: what is yielded is the catalog held before, not
    the persisted entries of the user. *)
Lemma loadForUser_absent_or_malformed_not_empty :
  audioRecordings (storage left_behind) = None /\
  result (loadForUser resolving bob) left_behind = Returned [alice_take] /\
  audioRecordings (storage (corrupted left_behind)) = Some (Garbled "[{id:") /\
  result (loadForUser resolving bob) (corrupted left_behind)
    = Returned [alice_take] /\
  audioRecordings (storage unread_handover) = Some (Json [alice_take]) /\
  filter (owned_by (User.id bob)) [alice_take] = [] /\
  result (loadForUser store_unreadable bob) unread_handover
    = Returned [alice_take].
Proof. repeat split; vm_compute; reflexivity. Qed.

(** A state like [left_behind] arises from the operations themselves. *)
Example handover_leaves_catalog_behind :
  let w := after handover (signed_in alice fresh_install) in
  user (auth w) = Some bob /\
  audioRecordings (storage w) = None /\
  recordings (audio w) = [alice_take].
Proof. repeat split; vm_compute; reflexivity. Qed.

(** What [loadForUser] yields, case by case. *)
Lemma loadForUser_result (p : Platform) (u : User.t) (w : World) :
  result (loadForUser p u) w
  = Returned
      (match audioRecordings (storage w) with
       | Some (Json all) =>
           if rejects p getItem then recordings (audio w)
           else filter (owned_by (User.id u)) all
       | _ => recordings (audio w)
       end).
Proof.
  unfold loadForUser, loadRecordings. unfold_async.
  destruct (rejects p getItem); cbn.
  - destruct (audioRecordings (storage w)) as [[raw|all]|]; reflexivity.
  - destruct (audioRecordings (storage w)) as [[raw|all]|]; cbn;
      try reflexivity.
    destruct (truthy_string raw); reflexivity.
Qed.

Lemma loadRecordings_returns (p : Platform) (w : World) :
  result (loadRecordings p) w = Returned tt.
Proof.
  unfold loadRecordings. unfold_async.
  destruct (rejects p getItem); cbn; [reflexivity|].
  destruct (audioRecordings (storage w)) as [[raw|all]|]; cbn;
    try reflexivity.
  destruct (truthy_string raw); reflexivity.
Qed.

(** C6, as the code has it.  [loadRecordings] never throws.  When the
    store answers the read and the blob is there and parses,
    [loadForUser] yields its entries filtered to the user.  When the blob
    is absent, empty or malformed, or when the store rejects the read, it
    yields the catalog the provider already held: the empty sequence
    when that catalog was empty, as it is at start-up.  A malformed blob
    that is not the empty text and a rejected read are logged and raise a
    notice. *)
Theorem loadForUser_yields (p : Platform) (u : User.t) (w : World) :
  result (loadRecordings p) w = Returned tt /\
  result (loadForUser p u) w
    = Returned
        (match audioRecordings (storage w) with
         | Some (Json all) =>
             if rejects p getItem then recordings (audio w)
             else filter (owned_by (User.id u)) all
         | _ => recordings (audio w)
         end) /\
  (recordings (audio w) = [] ->
   (audioRecordings (storage w) = None \/
    exists raw, audioRecordings (storage w) = Some (Garbled raw)) ->
   result (loadForUser p u) w = Returned []) /\
  (forall raw,
     rejects p getItem = false ->
     audioRecordings (storage w) = Some (Garbled raw) ->
     raw <> EmptyString ->
     events (after (loadRecordings p) w)
     = Alerted "Error" "Failed to load recordings"
       :: ConsoleError "Error loading recordings:" "SyntaxError"
       :: ReadItem "audioRecordings" :: events w) /\
  (forall all,
     rejects p getItem = false ->
     audioRecordings (storage w) = Some (Json all) ->
     result (loadForUser p u) w = Returned (filter (owned_by (User.id u)) all)) /\
  (audioRecordings (storage w) = None \/
   (exists raw, audioRecordings (storage w) = Some (Garbled raw)) \/
   rejects p getItem = true ->
   result (loadForUser p u) w = Returned (recordings (audio w)) /\
   (recordings (audio w) = [] -> result (loadForUser p u) w = Returned [])) /\
  (rejects p getItem = true ->
   events (after (loadRecordings p) w)
   = Alerted "Error" "Failed to load recordings"
     :: ConsoleError "Error loading recordings:" "AsyncStorage.getItem rejected"
     :: events w).
Proof.
  split; [apply loadRecordings_returns|].
  split; [apply loadForUser_result|].
  split; [|split; [|split; [|split]]].
  - intros Hempty Hblob. rewrite loadForUser_result.
    destruct Hblob as [-> | [raw ->]]; rewrite Hempty; reflexivity.
  - intros raw Hget Hblob Hraw. apply truthy_string_true in Hraw.
    unfold loadRecordings. unfold_async. rewrite Hget. cbn.
    rewrite Hblob. cbn. rewrite Hraw. reflexivity.
  - intros all Hget Hblob. rewrite loadForUser_result, Hblob, Hget.
    reflexivity.
  - intros Hcase.
    assert (H : result (loadForUser p u) w = Returned (recordings (audio w))).
    { rewrite loadForUser_result.
      destruct Hcase as [-> | [[raw ->] | Hget]]; try reflexivity.
      rewrite Hget.
      destruct (audioRecordings (storage w)) as [[raw|all]|]; reflexivity. }
    split; [exact H|]. intros Hempty. rewrite H, Hempty. reflexivity.
  - intros Hget. unfold loadRecordings. unfold_async. rewrite Hget.
    reflexivity.
Qed.

Lemma loadForUser_yields_witness :
  result (loadForUser resolving alice) (corrupted fresh_install) = Returned [] /\
  result (loadForUser resolving alice) (library bob [bob_take]) = Returned [] /\
  result (loadForUser resolving bob) (library bob [bob_take]) = Returned [bob_take] /\
  result (loadForUser resolving bob) unread_handover = Returned [] /\
  result (loadForUser store_unreadable bob) unread_handover = Returned [alice_take].
Proof.
  split; [|split; [|split; [|split]]].
  - apply (proj1 (proj2 (proj2
             (loadForUser_yields resolving alice (corrupted fresh_install))))).
    + reflexivity.
    + right. eexists. reflexivity.
  - exact (proj1 (proj2 (loadForUser_yields resolving alice
                           (library bob [bob_take])))).
  - exact (proj1 (proj2 (loadForUser_yields resolving bob
                           (library bob [bob_take])))).
  - apply (proj1 (proj2 (proj2 (proj2 (proj2
             (loadForUser_yields resolving bob unread_handover)))))
             [alice_take]); reflexivity.
  - apply (proj1 (proj2 (proj2 (proj2 (proj2 (proj2
             (loadForUser_yields store_unreadable bob unread_handover))))))).
    right. right. reflexivity.
Defined.

(** *** Renaming *)

Lemma retitle_renamed (recordingId newTitle : string) (l : list Recording.t) :
  Forall2 (renamed recordingId newTitle) l (map (retitle recordingId newTitle) l).
Proof.
  induction l as [|r l IH]; simpl; constructor; [|exact IH].
  unfold renamed, retitle, has_id.
  destruct (String.eqb_spec (Recording.id r) recordingId) as [E|E]; split;
    intros H; try contradiction; auto.
  repeat split; reflexivity.
Qed.

Lemma saveRecordings_audio (p : Platform) (rs : list Recording.t) (w : World) :
  audio (after (saveRecordings p rs) w) = audio w.
Proof.
  unfold saveRecordings. unfold_async.
  destruct (rejects p getItem); cbn; [reflexivity|].
  destruct (audioRecordings (storage w)) as [[raw|all]|]; cbn;
    [destruct (truthy_string raw); cbn| |];
    destruct (rejects p setItem); reflexivity.
Qed.

Lemma updateRecordingTitle_catalog (p : Platform) (recordingId newTitle : string)
    (w : World) :
  recordings (audio (after (updateRecordingTitle p recordingId newTitle) w))
  = map (retitle recordingId newTitle) (recordings (audio w)).
Proof.
  unfold updateRecordingTitle, saveRecordings. unfold_async.
  destruct (rejects p getItem); cbn; [reflexivity|].
  destruct (audioRecordings (storage w)) as [[raw|all]|]; cbn;
    [destruct (truthy_string raw); cbn| |];
    destruct (rejects p setItem); reflexivity.
Qed.

Lemma updateRecordingTitle_blob (p : Platform) (recordingId newTitle : string)
    (w : World) :
  rejects p getItem = false ->
  rejects p setItem = false ->
  audioRecordings
    (storage (after (updateRecordingTitle p recordingId newTitle) w))
  = match audioRecordings (storage w) with
    | Some (Garbled raw) =>
        if truthy_string raw then Some (Garbled raw)
        else Some (Json (map (retitle recordingId newTitle)
                             (recordings (audio w))))
    | Some (Json all) =>
        Some (Json (filter (fun rec => negb (is_user (user (auth w)) rec)) all
                    ++ map (retitle recordingId newTitle)
                           (recordings (audio w)))%list)
    | None =>
        Some (Json (map (retitle recordingId newTitle) (recordings (audio w))))
    end.
Proof.
  intros Hget Hset. unfold updateRecordingTitle, saveRecordings. unfold_async.
  rewrite Hget. cbn.
  destruct (audioRecordings (storage w)) as [[raw|all]|] eqn:Hblob; cbn;
    [destruct (truthy_string raw); cbn| |]; rewrite ?Hset; cbn;
    rewrite ?Hblob; reflexivity.
Qed.

Lemma updateRecordingTitle_auth (p : Platform) (recordingId newTitle : string)
    (w : World) :
  auth (after (updateRecordingTitle p recordingId newTitle) w) = auth w.
Proof.
  unfold updateRecordingTitle, saveRecordings. unfold_async.
  destruct (rejects p getItem); cbn; [reflexivity|].
  destruct (audioRecordings (storage w)) as [[raw|all]|]; cbn;
    [destruct (truthy_string raw); cbn| |];
    destruct (rejects p setItem); reflexivity.
Qed.

Lemma retitle_owner (recordingId newTitle : string) (r : Recording.t) :
  Recording.userId (retitle recordingId newTitle r) = Recording.userId r.
Proof. unfold retitle. destruct (has_id recordingId r); reflexivity. Qed.

Lemma filter_retitle (uid recordingId newTitle : string) (l : list Recording.t) :
  filter (owned_by uid) (map (retitle recordingId newTitle) l)
  = map (retitle recordingId newTitle) (filter (owned_by uid) l).
Proof.
  induction l as [|x l IH]; cbn [map filter]; [reflexivity|].
  assert (E : owned_by uid (retitle recordingId newTitle x) = owned_by uid x).
  { unfold owned_by. rewrite retitle_owner. reflexivity. }
  rewrite E. destruct (owned_by uid x); cbn [map]; rewrite IH; reflexivity.
Qed.

Lemma filter_others_none (u : User.t) (all : list Recording.t) :
  filter (owned_by (User.id u))
         (filter (fun rec => negb (is_user (Some u) rec)) all)
  = [].
Proof.
  rewrite filter_filter. apply filter_none. apply Forall_forall.
  intros x _. unfold owned_by, is_user.
  destruct (Recording.userId x =? User.id u)%string; reflexivity.
Qed.

(** The blob a rename leaves when its save goes through. *)
Lemma updateRecordingTitle_saved (p : Platform) (recordingId newTitle : string)
    (w : World) :
  rejects p getItem = false ->
  rejects p setItem = false ->
  blob_readable w ->
  audioRecordings
    (storage (after (updateRecordingTitle p recordingId newTitle) w))
  = Some (Json (filter (fun rec => negb (is_user (user (auth w)) rec))
                       (blob_entries w)
                ++ map (retitle recordingId newTitle) (recordings (audio w)))%list).
Proof.
  intros Hget Hset Hblob. unfold updateRecordingTitle. unfold_async.
  rewrite saveRecordings_resolves; [reflexivity|exact Hget|exact Hset|exact Hblob].
Qed.

(** C8. The session's user renames a recording [r] of their catalog; the
    blob is readable and the store answers, during the rename and during
    the load that follows.  In the catalog, the entries called
    [recordingId] differ from before in their title only ([uri],
    [createdAt] and the other fields are kept) and every other entry is
    unchanged.  A following [loadForUser], whatever catalog the provider
    holds in memory by then, yields from the store exactly the user's
    entries of the catalog with that rename applied: it holds [r] with
    [newTitle] as its title, every entry it holds under [recordingId] has
    that title, and it is the renamed catalog itself when the catalog
    held the user's recordings only. *)
Theorem updateRecordingTitle_renames (p p' : Platform) (w : World) (u : User.t)
    (r : Recording.t) (recordingId newTitle : string) :
  user (auth w) = Some u ->
  In r (recordings (audio w)) ->
  Recording.id r = recordingId ->
  owns u r ->
  rejects p getItem = false ->
  rejects p setItem = false ->
  blob_readable w ->
  rejects p' getItem = false ->
  let w1 := after (updateRecordingTitle p recordingId newTitle) w in
  let mine := filter (owned_by (User.id u)) (recordings (audio w)) in
  Forall2 (renamed recordingId newTitle)
          (recordings (audio w)) (recordings (audio w1)) /\
  forall v,
    storage v = storage w1 ->
    exists loaded,
      result (loadForUser p' u) v = Returned loaded /\
      loaded = map (retitle recordingId newTitle) mine /\
      Forall2 (renamed recordingId newTitle) mine loaded /\
      In (Recording.with_title newTitle r) loaded /\
      (forall x, In x loaded -> Recording.id x = recordingId ->
                 Recording.title x = newTitle) /\
      (Forall (owns u) (recordings (audio w)) ->
       loaded = recordings (audio w1)).
Proof.
  intros Hu Hin Hid Hown Hget Hset Hblob Hget' w1 mine.
  assert (Hcat := updateRecordingTitle_catalog p recordingId newTitle w).
  fold w1 in Hcat.
  split; [rewrite Hcat; apply retitle_renamed|].
  intros v Hv.
  assert (Hload : result (loadForUser p' u) v
                  = Returned (map (retitle recordingId newTitle) mine)).
  { rewrite loadForUser_result, Hv. unfold w1.
    rewrite (updateRecordingTitle_saved p recordingId newTitle w Hget Hset Hblob).
    rewrite Hget', Hu, filter_app, filter_others_none, filter_retitle.
    reflexivity. }
  exists (map (retitle recordingId newTitle) mine).
  split; [exact Hload|]. split; [reflexivity|].
  split; [apply retitle_renamed|]. split; [|split].
  - apply in_map_iff. exists r. split.
    + unfold retitle, has_id. rewrite Hid, String.eqb_refl. reflexivity.
    + apply filter_In. split; [exact Hin|]. apply String.eqb_eq. exact Hown.
  - intros x Hx Hidx. apply in_map_iff in Hx as (x0 & <- & _).
    unfold retitle, has_id in *.
    destruct (String.eqb_spec (Recording.id x0) recordingId) as [E|E];
      [reflexivity | contradiction].
  - intros Hall. rewrite Hcat. unfold mine. rewrite filter_all; [reflexivity|].
    eapply Forall_impl; [|exact Hall]. intros x Hx. apply String.eqb_eq. exact Hx.
Qed.

Lemma updateRecordingTitle_renames_witness :
  result (loadForUser resolving alice)
         (restart (after (updateRecordingTitle resolving "1700000000000" "My Take")
                         (library alice [alice_take])))
  = Returned [Recording.with_title "My Take" alice_take].
Proof.
  destruct (updateRecordingTitle_renames resolving resolving
              (library alice [alice_take]) alice alice_take
              "1700000000000" "My Take")
    as (_ & H);
    [ reflexivity | left; reflexivity | reflexivity | reflexivity
    | reflexivity | reflexivity | exact I | reflexivity | ].
  destruct (H (restart (after (updateRecordingTitle resolving "1700000000000"
                                 "My Take")
                              (library alice [alice_take]))) eq_refl)
    as (loaded & Hload & Heq & _).
  rewrite Hload, Heq. reflexivity.
Defined.

(** *** Authentication *)

(** C9. Whatever the email and the password, [login] returns normally
    once the two stores accept its writes; the profile it sets and
    persists is [login_userData email], a function of the email alone,
    next to the token.  [logout] then clears the persisted token and
    profile, and [checkAuthState] at the next start finds nobody signed
    in (and, when the token store answers, navigates to the login
    screen). *)
Theorem login_logout_restart (p1 p2 p3 : Platform) (email password : string)
    (w : World) :
  rejects p1 setItemAsync = false ->
  rejects p1 setItem = false ->
  rejects p2 deleteItemAsync = false ->
  rejects p2 removeItem = false ->
  let w1 := after (login p1 email password) w in
  let w2 := after (logout p2) w1 in
  let w3 := after (checkAuthState p3) (restart w2) in
  (result (login p1 email password) w = Returned tt /\
   user (auth w1) = Some (login_userData email) /\
   userToken (storage w1) = Some "dummy-token" /\
   userData (storage w1) = Some (Json (login_userData email)) /\
   User.email (login_userData email) = email /\
   User.name (login_userData email) = split_at_0 email) /\
  (result (logout p2) w1 = Returned tt /\
   userToken (storage w2) = None /\
   userData (storage w2) = None) /\
  (result (checkAuthState p3) (restart w2) = Returned tt /\
   unauthenticated (auth w3) /\
   loading (auth w3) = false /\
   (rejects p3 getItemAsync = false ->
    events w3 = Navigated "/login" :: SecureRead "userToken" :: events w2)).
Proof.
  intros H1 H2 H3 H4 w1 w2 w3. subst w1 w2 w3.
  unfold unauthenticated, login, logout, checkAuthState, restart. unfold_async.
  rewrite H1. cbn. rewrite H2. cbn. rewrite H3. cbn. rewrite H4. cbn.
  repeat split; destruct (rejects p3 getItemAsync); cbn;
    try reflexivity; discriminate.
Qed.

Lemma login_logout_restart_witness :
  user (auth (after (login resolving "a@x.com" "hunter2") fresh_install))
    = Some alice /\
  unauthenticated
    (auth (after (checkAuthState resolving)
             (restart (after (logout resolving)
                         (after (login resolving "a@x.com" "hunter2")
                                fresh_install))))).
Proof.
  destruct (login_logout_restart resolving resolving resolving
              "a@x.com" "hunter2" fresh_install)
    as ((_ & Huser & _) & _ & (_ & Hout & _)); try reflexivity.
  split; [exact Huser | exact Hout].
Defined.

(** *** The capture session *)

Lemma remove_handle_not_in (h : handle) (l : list handle) :
  ~ In h (remove_handle h l).
Proof.
  unfold remove_handle. intros H. apply filter_In in H as [_ H].
  rewrite Nat.eqb_refl in H. discriminate H.
Qed.




(** *** The playback session *)

(** The claim of C3 fails on the session state when the requested id is
    not in the catalog.  The sound that was playing is stopped and
    unloaded, the lookup throws, and the session cells are left as they
    were: they still name the other recording and its released handle,
    not the requested id, also once the device has reported the stop. *)
Lemma playRecording_missing_id_keeps_session :
  playing (audio listening) "1700000000000" 0 /\
  openSounds (device listening) = [0] /\
  find (has_id "1600000000000") (recordings (audio listening)) = None /\
  result (playRecording resolving "1600000000000") listening = Returned tt /\
  playing (audio (after (playRecording resolving "1600000000000") listening))
          "1700000000000" 0 /\
  openSounds (device (after (playRecording resolving "1600000000000") listening))
    = [] /\
  currentPlayingId
    (audio (after (playRecording resolving "1600000000000") listening))
    <> Some "1600000000000" /\
  currentPlayingId
    (audio (after (playRecording resolving "1600000000000" ;;
                   onPlaybackStatusUpdate stopped_status) listening))
    = Some "1700000000000".
Proof.
  unfold playing.
  repeat split; try (vm_compute; reflexivity). vm_compute. discriminate.
Qed.

Lemma sounds_tracked_length (w : World) :
  sounds_tracked w -> length (openSounds (device w)) <= 1.
Proof.
  intros [H | (sound & _ & H)]; rewrite H; simpl; lia.
Qed.

Lemma sounds_tracked_unload (w : World) (old : handle) :
  sounds_tracked w ->
  currentSound (audio w) = Some old ->
  remove_handle old (openSounds (device w)) = [].
Proof.
  intros [H | (sound & Hs & H)] Hold; rewrite H; [reflexivity|].
  rewrite Hold in Hs. injection Hs as <-. cbn. rewrite Nat.eqb_refl. reflexivity.
Qed.

Lemma sounds_tracked_none (w : World) :
  sounds_tracked w ->
  currentSound (audio w) = None ->
  openSounds (device w) = [].
Proof.
  intros [H | (sound & Hs & H)] Hnone; [exact H | congruence].
Qed.

(** C3, as the code has it.  From a state where no sound handle is open
    besides the session's, every run of [playRecording] ends with at most
    one sound handle open, none besides the session's.  When the id is in
    the catalog and the device calls resolve, the sound that was current
    is stopped and unloaded before the new one is created, the new handle
    is the only one open, and the session plays the requested id. *)
Theorem playRecording_one_sound (p : Platform) (w : World) (recordingId : string) :
  sounds_tracked w ->
  let w' := after (playRecording p recordingId) w in
  sounds_tracked w' /\
  length (openSounds (device w')) <= 1 /\
  (forall recording,
      find (has_id recordingId) (recordings (audio w)) = Some recording ->
      rejects p stopAsync = false ->
      rejects p unloadAsync = false ->
      rejects p createAsync = false ->
      let sound := nextHandle (device w) in
      playing (audio w') recordingId sound /\
      openSounds (device w') = [sound] /\
      events w'
      = (CreatedSound sound (Recording.uri recording)
         :: released (currentSound (audio w)) ++ events w)%list).
Proof.
  intros Htr w'.
  assert (Htr' : sounds_tracked w').
  { subst w'. unfold playRecording, playRecording_body. unfold_async.
    destruct (currentSound (audio w)) as [old|] eqn:Hold.
    - pose proof (sounds_tracked_unload w old Htr Hold) as Hrel.
      destruct (rejects p stopAsync); cbn.
      { unfold sounds_tracked. cbn. exact Htr. }
      destruct (rejects p unloadAsync); cbn.
      { unfold sounds_tracked. cbn. exact Htr. }
      destruct (find (has_id recordingId) (recordings (audio w))); cbn.
      + destruct (rejects p createAsync); cbn.
        * left. cbn. exact Hrel.
        * right. cbn. rewrite Hrel. eexists. split; reflexivity.
      + left. cbn. exact Hrel.
    - pose proof (sounds_tracked_none w Htr Hold) as Hrel.
      destruct (find (has_id recordingId) (recordings (audio w))); cbn.
      + destruct (rejects p createAsync); cbn.
        * left. cbn. exact Hrel.
        * right. cbn. rewrite Hrel. eexists. split; reflexivity.
      + left. cbn. exact Hrel. }
  split; [exact Htr'|]. split; [apply sounds_tracked_length; exact Htr'|].
  intros recording Hfind Hstop Hunload Hcreate sound.
  subst w' sound. unfold playing, playRecording, playRecording_body. unfold_async.
  destruct (currentSound (audio w)) as [old|] eqn:Hold.
  - pose proof (sounds_tracked_unload w old Htr Hold) as Hrel.
    rewrite Hstop. cbn. rewrite Hunload. cbn. rewrite Hfind, Hcreate. cbn.
    rewrite Hrel. repeat split.
  - pose proof (sounds_tracked_none w Htr Hold) as Hrel.
    cbn. rewrite Hfind, Hcreate. cbn. rewrite Hrel. repeat split.
Qed.

Lemma playRecording_one_sound_witness :
  sounds_tracked listening /\
  playing (audio (after (playRecording resolving "1700000000000") listening))
          "1700000000000" 1 /\
  openSounds (device (after (playRecording resolving "1700000000000") listening))
    = [1].
Proof.
  assert (H : sounds_tracked listening).
  { right. exists 0. split; reflexivity. }
  split; [exact H|].
  destruct (playRecording_one_sound resolving listening "1700000000000" H)
    as (_ & _ & Hplay).
  destruct (Hplay alice_take) as (Hp & Hopen & _); try reflexivity.
  split; [exact Hp | exact Hopen].
Defined.

(** *** Deleting *)

Lemma remove_file_not_in (u : string) (l : list string) :
  ~ In u (remove_file u l).
Proof.
  unfold remove_file. intros H. apply filter_In in H as [_ H].
  rewrite String.eqb_refl in H. discriminate H.
Qed.

Lemma filtered_id_absent (recordingId : string) (l : list Recording.t) :
  ~ In recordingId
       (map Recording.id (filter (fun r => negb (has_id recordingId r)) l)).
Proof.
  intros H. apply in_map_iff in H as (r & Hid & Hin).
  apply filter_In in Hin as [_ Hin]. unfold has_id in Hin.
  rewrite Hid, String.eqb_refl in Hin. discriminate Hin.
Qed.

(** C4. The recording being played is deleted, and the device, the
    filesystem and the store do what they are asked.  Then, in this
    order, the sound is stopped and unloaded, the audio payload is deleted
    and the blob is rewritten; the playback session is idle and its
    handle released, the payload is gone, and neither the catalog nor
    what was written for the session's user holds the id any more. *)
Theorem deleteRecording_while_playing (p : Platform) (w : World)
    (recordingId : string) (sound : handle) (recording : Recording.t) :
  currentPlayingId (audio w) = Some recordingId ->
  currentSound (audio w) = Some sound ->
  find (has_id recordingId) (recordings (audio w)) = Some recording ->
  rejects p stopAsync = false ->
  rejects p unloadAsync = false ->
  rejects p deleteAsync = false ->
  rejects p getItem = false ->
  rejects p setItem = false ->
  blob_readable w ->
  let w' := after (deleteRecording p recordingId) w in
  result (deleteRecording p recordingId) w = Returned tt /\
  events w'
  = WroteItem "audioRecordings" :: ReadItem "audioRecordings"
    :: DeletedFile (Recording.uri recording)
    :: UnloadedSound sound :: StoppedSound sound :: events w /\
  playback_idle (audio w') /\
  ~ In sound (openSounds (device w')) /\
  ~ In (Recording.uri recording) (files (device w')) /\
  recordings (audio w')
  = filter (fun r => negb (has_id recordingId r)) (recordings (audio w)) /\
  ~ In recordingId (map Recording.id (recordings (audio w'))) /\
  audioRecordings (storage w')
  = Some (Json (filter (fun rec => negb (is_user (user (auth w)) rec))
                       (blob_entries w)
                ++ recordings (audio w'))%list).
Proof.
  intros Hid Hsound Hfind Hstop Hunload Hdelete Hget Hset Hblob w'.
  assert (Hrun : exists w1,
    audio w1 = mkAudioState
                 (filter (fun r => negb (has_id recordingId r)) (recordings (audio w)))
                 (currentRecording (audio w)) (isRecording (audio w))
                 None false None /\
    auth w1 = auth w /\ storage w1 = storage w /\
    device w1 = set_files (remove_file (Recording.uri recording) (files (device w)))
                  (set_openSounds (remove_handle sound (openSounds (device w)))
                     (device w)) /\
    events w1 = DeletedFile (Recording.uri recording) :: UnloadedSound sound
                :: StoppedSound sound :: events w /\
    deleteRecording p recordingId w
    = (saved (filter (fun r => negb (has_id recordingId r)) (recordings (audio w)))
             w1, Returned tt)).
  { eexists (mkWorld _ _ _ _ _). repeat (split; [reflexivity|]).
    unfold deleteRecording, stopPlaying. unfold_async.
    rewrite Hid. cbn. rewrite String.eqb_refl, Hsound, Hstop. cbn.
    rewrite Hunload. cbn. rewrite Hfind, Hdelete. cbn.
    rewrite saveRecordings_resolves; [reflexivity|exact Hget|exact Hset|exact Hblob]. }
  destruct Hrun as (w1 & Ha & Hau & Hst & Hdev & Hev & Hrun).
  subst w'. unfold after, result, playback_idle. rewrite Hrun. cbn.
  unfold blob_entries. rewrite Ha, Hau, Hst, Hdev, Hev. cbn.
  repeat split.
  - apply remove_handle_not_in.
  - apply remove_file_not_in.
  - apply filtered_id_absent.
Qed.

Lemma deleteRecording_while_playing_witness :
  playback_idle
    (audio (after (deleteRecording resolving "1700000000000") listening)) /\
  recordings (audio (after (deleteRecording resolving "1700000000000") listening))
    = [].
Proof.
  destruct (deleteRecording_while_playing resolving listening "1700000000000"
              0 alice_take)
    as (_ & _ & Hidle & _ & _ & Hcat & _); try reflexivity.
  split; [exact Hidle | exact Hcat].
Defined.

(** *** Failures *)

Lemma try_catch_thrown {A} (body : Async A) (handler : string -> Async A)
    (w : World) (e : string) :
  result body w = Thrown e ->
  try_catch body handler w = handler e (after body w).
Proof.
  unfold result, after, try_catch. destruct (body w) as [w1 [a|e']]; cbn;
    intros H; [discriminate H|]. injection H as ->. reflexivity.
Qed.

Lemma try_catch_returned {A} (body : Async A) (handler : string -> Async A)
    (w : World) (a : A) :
  result body w = Returned a ->
  try_catch body handler w = (after body w, Returned a).
Proof.
  unfold result, after, try_catch. destruct (body w) as [w1 [a'|e]]; cbn;
    intros H; [|discriminate H]. injection H as ->. reflexivity.
Qed.

(** An operation whose handler logs and raises a notice never throws. *)
Lemma notice_handler_returns (body : Async unit) (message notice : string)
    (w : World) :
  result (try_catch body (fun error =>
            console_error message error ;; Alert_alert "Error" notice)) w
  = Returned tt.
Proof.
  unfold result, try_catch. destruct (body w) as [w1 [[]|e]]; reflexivity.
Qed.

Lemma startRecording_body_thrown (p : Platform) (w : World) (e : string) :
  result (startRecording_body p) w = Thrown e ->
  audio (after (startRecording_body p) w) = audio w.
Proof.
  unfold startRecording_body. unfold_async.
  destruct (rejects p requestPermissionsAsync); cbn; [reflexivity|].
  destruct (granted p); cbn; [|discriminate].
  destruct (rejects p setAudioModeAsync); cbn; [reflexivity|].
  destruct (rejects p prepareToRecordAsync); cbn; [reflexivity|].
  destruct (rejects p startAsync); cbn; [reflexivity|discriminate].
Qed.

Lemma stopRecording_body_thrown (p : Platform) (w : World) (e : string) :
  result (stopRecording_body p) w = Thrown e ->
  currentRecording (audio (after (stopRecording_body p) w))
    = currentRecording (audio w) /\
  isRecording (audio (after (stopRecording_body p) w)) = isRecording (audio w).
Proof.
  unfold stopRecording_body. unfold_async.
  destruct (currentRecording (audio w)) as [capture|] eqn:Hcap;
    [|cbn; discriminate].
  destruct (user (auth w)) as [u|]; [|cbn; discriminate].
  destruct (rejects p stopAndUnloadAsync); cbn; [auto|].
  destruct (getURI p) as [uri|]; cbn; [|auto].
  destruct (truthy_string uri); cbn; [|auto].
  destruct (rejects p getStatusAsync); cbn; [auto|].
  match goal with
  | |- context [saveRecordings ?q ?l ?v] =>
      pose proof (saveRecordings_audio q l v) as Ha;
      unfold after in Ha;
      destruct (saveRecordings q l v) as [w2 [[]|e']]
  end; cbn in *; [discriminate|].
  intros _. rewrite Ha. cbn. auto.
Qed.

Lemma playRecording_body_thrown (p : Platform) (recordingId : string)
    (w : World) (e : string) :
  result (playRecording_body p recordingId) w = Thrown e ->
  audio (after (playRecording_body p recordingId) w) = audio w.
Proof.
  unfold playRecording_body. unfold_async.
  destruct (currentSound (audio w)) as [old|]; cbn.
  - destruct (rejects p stopAsync); cbn; [reflexivity|].
    destruct (rejects p unloadAsync); cbn; [reflexivity|].
    destruct (find (has_id recordingId) (recordings (audio w))); cbn;
      [|reflexivity].
    destruct (rejects p createAsync); cbn; [reflexivity|discriminate].
  - destruct (find (has_id recordingId) (recordings (audio w))); cbn;
      [|reflexivity].
    destruct (rejects p createAsync); cbn; [reflexivity|discriminate].
Qed.

(** The claim of C7 fails on the state a failure leaves.  A lookup that
    finds nothing in [playRecording], and a save the store rejects in
    [stopRecording], are caught and reported, but the sessions are not
    idle afterwards: the playback cells still hold the released sound and
    its id (also once the device has reported the stop), the capture cells
    still hold the finalised capture. *)
Lemma failure_does_not_return_to_idle :
  result (playRecording_body resolving "1600000000000") listening
    = Thrown "Recording not found" /\
  result (playRecording resolving "1600000000000") listening = Returned tt /\
  ~ playback_idle
      (audio (after (playRecording resolving "1600000000000") listening)) /\
  ~ playback_idle
      (audio (after (playRecording resolving "1600000000000" ;;
                     onPlaybackStatusUpdate stopped_status) listening)) /\
  result (stopRecording_body store_full) capturing
    = Thrown "Failed to save recordings" /\
  result (stopRecording store_full) capturing = Returned tt /\
  ~ capture_idle (audio (after (stopRecording store_full) capturing)).
Proof.
  repeat split; try (vm_compute; reflexivity).
  - intros [H _]. vm_compute in H. discriminate H.
  - intros [H _]. vm_compute in H. discriminate H.
  - intros [H _]. vm_compute in H. discriminate H.
Qed.

(** C7, as the code has it.  [startRecording], [stopRecording] and
    [playRecording] never throw.  When the body of one of them throws (a
    rejected platform call, a capture without a data reference, an id that
    is not in the catalog), the error is logged and a notice is raised,
    and the session cells are what they were before the call: all of the
    provider's state for [startRecording] and [playRecording], the capture
    handle and the recording flag for [stopRecording].  A refused
    microphone permission raises its own notice and changes no cell
    either.  The session is idle afterwards exactly when it was idle
    before. *)
Theorem failures_are_caught (p : Platform) (w : World) (recordingId : string) :
  (result (startRecording p) w = Returned tt /\
   forall e, result (startRecording_body p) w = Thrown e ->
     events (after (startRecording p) w)
     = Alerted "Error" "Failed to start recording"
       :: ConsoleError "Error starting recording:" e
       :: events (after (startRecording_body p) w) /\
     audio (after (startRecording p) w) = audio w) /\
  (rejects p requestPermissionsAsync = false -> granted p = false ->
     events (after (startRecording p) w)
     = Alerted "Permission required"
               "Please grant microphone access to record audio."
       :: RequestedPermissions :: events w /\
     audio (after (startRecording p) w) = audio w) /\
  (result (stopRecording p) w = Returned tt /\
   forall e, result (stopRecording_body p) w = Thrown e ->
     events (after (stopRecording p) w)
     = Alerted "Error" "Failed to stop recording"
       :: ConsoleError "Error stopping recording:" e
       :: events (after (stopRecording_body p) w) /\
     currentRecording (audio (after (stopRecording p) w))
       = currentRecording (audio w) /\
     isRecording (audio (after (stopRecording p) w)) = isRecording (audio w)) /\
  (result (playRecording p recordingId) w = Returned tt /\
   forall e, result (playRecording_body p recordingId) w = Thrown e ->
     events (after (playRecording p recordingId) w)
     = Alerted "Error" "Failed to play recording"
       :: ConsoleError "Error playing recording:" e
       :: events (after (playRecording_body p recordingId) w) /\
     audio (after (playRecording p recordingId) w) = audio w).
Proof.
  split; [|split; [|split]].
  - split; [apply notice_handler_returns|]. intros e He.
    pose proof (startRecording_body_thrown p w e He) as Ha.
    remember (after (startRecording_body p) w) as wb eqn:Hwb.
    unfold after, startRecording.
    rewrite (try_catch_thrown _ _ w e He), <- Hwb. unfold_async. cbn.
    split; [reflexivity|exact Ha].
  - intros Hreq Hdenied. unfold startRecording, startRecording_body.
    unfold_async. rewrite Hreq. cbn. rewrite Hdenied. cbn.
    split; reflexivity.
  - split; [apply notice_handler_returns|]. intros e He.
    pose proof (stopRecording_body_thrown p w e He) as [Hc Hr].
    remember (after (stopRecording_body p) w) as wb eqn:Hwb.
    unfold after, stopRecording.
    rewrite (try_catch_thrown _ _ w e He), <- Hwb. unfold_async. cbn.
    split; [reflexivity|]. split; [exact Hc|exact Hr].
  - split; [apply notice_handler_returns|]. intros e He.
    pose proof (playRecording_body_thrown p recordingId w e He) as Ha.
    remember (after (playRecording_body p recordingId) w) as wb eqn:Hwb.
    unfold after, playRecording.
    rewrite (try_catch_thrown _ _ w e He), <- Hwb. unfold_async. cbn.
    split; [reflexivity|exact Ha].
Qed.

Lemma failures_are_caught_witness :
  result (playRecording_body resolving "1600000000000") listening
    = Thrown "Recording not found" /\
  events (after (playRecording resolving "1600000000000") listening)
    = Alerted "Error" "Failed to play recording"
      :: ConsoleError "Error playing recording:" "Recording not found"
      :: events (after (playRecording_body resolving "1600000000000") listening) /\
  audio (after (playRecording resolving "1600000000000") listening)
    = audio listening.
Proof.
  split; [vm_compute; reflexivity|].
  apply (proj2 (proj2 (proj2 (proj2
           (failures_are_caught resolving listening "1600000000000"))))).
  vm_compute. reflexivity.
Defined.

(** *** Reachable playback states *)

(** [sounds_tracked], the hypothesis of C3, holds when the application
    starts and is kept by the operations that touch a sound. *)
Lemma sounds_tracked_restart (w : World) : sounds_tracked (restart w).
Proof. left. reflexivity. Qed.

Lemma stopPlaying_tracked (p : Platform) (w : World) :
  sounds_tracked w -> sounds_tracked (after (stopPlaying p) w).
Proof.
  intros Htr. unfold stopPlaying. unfold_async.
  destruct (currentSound (audio w)) as [old|] eqn:Hold; cbn; [|exact Htr].
  pose proof (sounds_tracked_unload w old Htr Hold) as Hrel.
  destruct (rejects p stopAsync); cbn.
  { unfold sounds_tracked. cbn. exact Htr. }
  destruct (rejects p unloadAsync); cbn.
  { unfold sounds_tracked. cbn. exact Htr. }
  left. cbn. exact Hrel.
Qed.

Lemma onPlaybackStatusUpdate_tracked (status : PlaybackStatus) (w : World) :
  sounds_tracked w -> sounds_tracked (after (onPlaybackStatusUpdate status) w).
Proof.
  intros Htr. unfold onPlaybackStatusUpdate. unfold_async.
  destruct (isLoaded status); cbn; [|exact Htr].
  destruct (didJustFinish status); cbn; exact Htr.
Qed.

(** ** Beyond the specification's claims *)

(** *** How a save ends *)

(** [saveRecordings] either goes through, which takes a store that
    answers and a readable blob, or throws and has changed nothing but
    the events. *)
Lemma saveRecordings_cases (p : Platform) (rs : list Recording.t) (w : World) :
  (saveRecordings p rs w = (saved rs w, Returned tt) /\
   store_resolves p /\ blob_readable w) \/
  (exists w' e,
      saveRecordings p rs w = (w', Thrown e) /\
      audio w' = audio w /\ auth w' = auth w /\
      storage w' = storage w /\ device w' = device w /\
      (store_resolves p -> ~ blob_readable w)).
Proof.
  unfold store_resolves, blob_readable.
  destruct (rejects p getItem) eqn:Hget.
  { right. unfold saveRecordings. unfold_async. rewrite Hget. cbn.
    do 2 eexists. repeat split. intros [H _]. discriminate H. }
  destruct (audioRecordings (storage w)) as [[raw|all]|] eqn:Hblob.
  - destruct (truthy_string raw) eqn:Hraw.
    + right. unfold saveRecordings. unfold_async. rewrite Hget. cbn.
      rewrite Hblob. cbn. rewrite Hraw. cbn.
      do 2 eexists. repeat split. intros _ E. subst raw. discriminate Hraw.
    + apply truthy_string_false in Hraw.
      destruct (rejects p setItem) eqn:Hset.
      * right. unfold saveRecordings. unfold_async. rewrite Hget. cbn.
        rewrite Hblob. subst raw. cbn. rewrite Hset. cbn.
        do 2 eexists. repeat split. intros [_ H]. discriminate H.
      * left. rewrite saveRecordings_resolves; auto.
        unfold blob_readable. rewrite Hblob. exact Hraw.
  - destruct (rejects p setItem) eqn:Hset.
    + right. unfold saveRecordings. unfold_async. rewrite Hget. cbn.
      rewrite Hblob. cbn. rewrite Hset. cbn.
      do 2 eexists. repeat split. intros [_ H]. discriminate H.
    + left. rewrite saveRecordings_resolves; auto.
      unfold blob_readable. rewrite Hblob. exact I.
  - destruct (rejects p setItem) eqn:Hset.
    + right. unfold saveRecordings. unfold_async. rewrite Hget. cbn.
      rewrite Hblob. cbn. rewrite Hset. cbn.
      do 2 eexists. repeat split. intros [_ H]. discriminate H.
    + left. rewrite saveRecordings_resolves; auto.
      unfold blob_readable. rewrite Hblob. exact I.
Qed.

(** Case analysis on the save an operation ends with. *)
Ltac case_save :=
  match goal with
  | |- context [saveRecordings ?q ?l ?v] =>
      let Hs := fresh "Hsave" in
      let ws := fresh "ws" in
      let e := fresh "e" in
      destruct (saveRecordings_cases q l v)
        as [(Hs & ? & ?) | (ws & e & Hs & ? & ? & ? & ? & ?)];
      rewrite Hs
  end.

(** Case analysis on what the platform answered and on the cells an
    operation reads. *)
Ltac case_platform :=
  repeat (cbn;
    match goal with
    | |- context [if rejects ?p ?c then _ else _] =>
        destruct (rejects p c) eqn:?
    | |- context [if negb (granted ?p) then _ else _] =>
        destruct (granted p) eqn:?
    | |- context [match getURI ?p with _ => _ end] =>
        destruct (getURI p) eqn:?
    | |- context [if truthy_string ?s then _ else _] =>
        destruct (truthy_string s) eqn:?
    | |- context [match find ?f ?l with _ => _ end] =>
        destruct (find f l) eqn:?
    | |- context [if is_playing_id ?c ?i then _ else _] =>
        destruct (is_playing_id c i) eqn:?
    end).

(** Rewriting with what a failed save left unchanged. *)
Ltac use_frame :=
  repeat match goal with
  | H : audio ?a = _ |- context [audio ?a] => rewrite H
  | H : auth ?a = _ |- context [auth ?a] => rewrite H
  | H : storage ?a = _ |- context [storage ?a] => rewrite H
  | H : device ?a = _ |- context [device ?a] => rewrite H
  end.

(** *** Every operation returns *)

Lemma perform_returns (p : Platform) (a : Action) (w : World) :
  result (perform p a) w = Returned tt.
Proof.
  destruct a; cbn [perform]; try apply notice_handler_returns.
  - unfold on_user_change, result, bind, gets.
    destruct (user (auth w)); [apply loadRecordings_returns|reflexivity].
  - unfold onPlaybackStatusUpdate. unfold_async.
    destruct (isLoaded status); [|reflexivity].
    destruct (didJustFinish status); reflexivity.
Qed.

Lemma session_after (p : Platform) (a : Action) (rest : list (Platform * Action))
    (w : World) :
  session ((p, a) :: rest) w = session rest (after (perform p a) w).
Proof.
  cbn [session]. unfold bind, after.
  pose proof (perform_returns p a w) as H. unfold result in H.
  destruct (perform p a w) as [w1 o]. cbn in *. subst o. reflexivity.
Qed.

(** An invariant of every step is an invariant of every session. *)
Lemma session_invariant (P : World -> Prop) (Q : Platform -> Prop) :
  (forall p a w, Q p -> P w -> P (after (perform p a) w)) ->
  forall steps w,
    Forall (fun step => Q (fst step)) steps ->
    P w -> P (after (session steps) w).
Proof.
  intros Hstep steps. induction steps as [|[p a] rest IH]; intros w HQ HP.
  - exact HP.
  - inversion HQ as [|x l Hp Hrest]; subst. cbn [fst] in Hp.
    unfold after. rewrite session_after. apply IH; [exact Hrest|].
    apply Hstep; assumption.
Qed.

(** X1. Whatever the platform answers, every action the provider takes
    returns normally: no rejection of a collaborator escapes an exported
    operation, the user-change load or the status callback.  A session
    therefore runs all its steps, and returns too. *)
Theorem session_never_throws (steps : list (Platform * Action)) (w : World) :
  result (session steps) w = Returned tt /\
  forall p a, result (perform p a) w = Returned tt.
Proof.
  split; [|intros p a; apply perform_returns].
  revert w. induction steps as [|[p a] rest IH]; intros w; [reflexivity|].
  unfold result. rewrite session_after. apply IH.
Qed.

(** *** One sound at a time *)

Lemma sounds_tracked_same (w w' : World) :
  currentSound (audio w') = currentSound (audio w) ->
  openSounds (device w') = openSounds (device w) ->
  sounds_tracked w -> sounds_tracked w'.
Proof.
  unfold sounds_tracked. intros -> ->. exact (fun H => H).
Qed.

Lemma playRecording_tracked (p : Platform) (recordingId : string) (w : World) :
  sounds_tracked w -> sounds_tracked (after (playRecording p recordingId) w).
Proof.
  intros Htr. unfold playRecording, playRecording_body. unfold_async.
  destruct (currentSound (audio w)) as [old|] eqn:Hold.
  - pose proof (sounds_tracked_unload w old Htr Hold) as Hrel.
    destruct (rejects p stopAsync); cbn.
    { unfold sounds_tracked. cbn. exact Htr. }
    destruct (rejects p unloadAsync); cbn.
    { unfold sounds_tracked. cbn. exact Htr. }
    destruct (find (has_id recordingId) (recordings (audio w))); cbn.
    + destruct (rejects p createAsync); cbn.
      * left. cbn. exact Hrel.
      * right. cbn. rewrite Hrel. eexists. split; reflexivity.
    + left. cbn. exact Hrel.
  - pose proof (sounds_tracked_none w Htr Hold) as Hrel.
    destruct (find (has_id recordingId) (recordings (audio w))); cbn.
    + destruct (rejects p createAsync); cbn.
      * left. cbn. exact Hrel.
      * right. cbn. rewrite Hrel. eexists. split; reflexivity.
    + left. cbn. exact Hrel.
Qed.

Lemma startRecording_sounds (p : Platform) (w : World) :
  currentSound (audio (after (startRecording p) w)) = currentSound (audio w) /\
  openSounds (device (after (startRecording p) w)) = openSounds (device w).
Proof.
  unfold startRecording, startRecording_body. unfold_async.
  case_platform; split; reflexivity.
Qed.

Lemma stopRecording_sounds (p : Platform) (w : World) :
  currentSound (audio (after (stopRecording p) w)) = currentSound (audio w) /\
  openSounds (device (after (stopRecording p) w)) = openSounds (device w).
Proof.
  unfold stopRecording, stopRecording_body. unfold_async.
  destruct (currentRecording (audio w)) as [capture|]; [|split; reflexivity].
  destruct (user (auth w)) as [u|]; [|split; reflexivity].
  case_platform; try (split; reflexivity).
  case_save; cbn; [split; reflexivity|].
  repeat match goal with H : _ ws = _ |- _ => rewrite H end.
  split; reflexivity.
Qed.

Lemma updateRecordingTitle_sounds (p : Platform) (recordingId newTitle : string)
    (w : World) :
  currentSound (audio (after (updateRecordingTitle p recordingId newTitle) w))
    = currentSound (audio w) /\
  openSounds (device (after (updateRecordingTitle p recordingId newTitle) w))
    = openSounds (device w).
Proof.
  unfold updateRecordingTitle. unfold_async.
  case_save; cbn; [split; reflexivity|].
  repeat match goal with H : _ ws = _ |- _ => rewrite H end.
  split; reflexivity.
Qed.

Lemma loadRecordings_sounds (p : Platform) (w : World) :
  currentSound (audio (after (loadRecordings p) w)) = currentSound (audio w) /\
  openSounds (device (after (loadRecordings p) w)) = openSounds (device w).
Proof.
  unfold loadRecordings. unfold_async.
  destruct (rejects p getItem); cbn; [split; reflexivity|].
  destruct (audioRecordings (storage w)) as [[raw|all]|]; cbn;
    [destruct (truthy_string raw)| |]; split; reflexivity.
Qed.

Lemma deleteRecording_tracked (p : Platform) (recordingId : string) (w : World) :
  sounds_tracked w -> sounds_tracked (after (deleteRecording p recordingId) w).
Proof.
  intros Htr.
  assert (Hkeep : forall w',
            currentSound (audio w') = currentSound (audio w) ->
            openSounds (device w') = openSounds (device w) ->
            sounds_tracked w').
  { intros w' H1 H2. apply (sounds_tracked_same w); assumption. }
  assert (Hgone : forall w', openSounds (device w') = [] -> sounds_tracked w').
  { intros w' H. left. exact H. }
  unfold deleteRecording, stopPlaying. unfold_async.
  destruct (is_playing_id (currentPlayingId (audio w)) recordingId).
  - destruct (currentSound (audio w)) as [old|] eqn:Hold.
    + pose proof (sounds_tracked_unload w old Htr Hold) as Hrel.
      case_platform; try case_save; cbn;
        first [ apply Hkeep; cbn; use_frame; first [reflexivity | exact Hold]
              | apply Hgone; cbn; use_frame; exact Hrel ].
    + case_platform; try case_save; cbn;
        apply Hkeep; cbn; use_frame; first [reflexivity | exact Hold].
  - case_platform; try case_save; cbn;
      apply Hkeep; cbn; use_frame; reflexivity.
Qed.

Lemma perform_tracked (p : Platform) (a : Action) (w : World) :
  sounds_tracked w -> sounds_tracked (after (perform p a) w).
Proof.
  intros Htr. destruct a; cbn [perform].
  - destruct (startRecording_sounds p w). eapply sounds_tracked_same; eauto.
  - destruct (stopRecording_sounds p w). eapply sounds_tracked_same; eauto.
  - apply playRecording_tracked, Htr.
  - apply stopPlaying_tracked, Htr.
  - apply deleteRecording_tracked, Htr.
  - destruct (updateRecordingTitle_sounds p recordingId newTitle w).
    eapply sounds_tracked_same; eauto.
  - unfold on_user_change, after, bind, gets.
    destruct (user (auth w)); [|exact Htr].
    destruct (loadRecordings_sounds p w). eapply sounds_tracked_same; eauto.
  - apply onPlaybackStatusUpdate_tracked, Htr.
Qed.

(** X2. From start-up on, whatever actions are taken in whatever order
    (plays on top of plays, deletions, status updates of the device) and
    whatever the platform answers to each, at most one sound handle is
    open, and it is the one the session holds in [currentSound]. *)
Theorem session_one_sound (steps : list (Platform * Action)) (w : World) :
  let w' := after (session steps) (restart w) in
  sounds_tracked w' /\ length (openSounds (device w')) <= 1.
Proof.
  assert (H : sounds_tracked (after (session steps) (restart w))).
  { apply (session_invariant sounds_tracked (fun _ => True)).
    - intros p a v _. apply perform_tracked.
    - apply Forall_forall. intros; exact I.
    - apply sounds_tracked_restart. }
  split; [exact H | apply sounds_tracked_length, H].
Qed.

(** *** What an action does to the catalog and the blob *)

Ltac solve_changed :=
  unfold changed;
  first [ left; eexists; refine (conj _ eq_refl); reflexivity
        | right; left; eexists; reflexivity
        | right; right; do 2 eexists; reflexivity ].

Ltac solve_step Hu :=
  first
    [ solve [apply step_same; cbn; use_frame; reflexivity]
    | solve [apply step_saved; cbn; use_frame; cbn; rewrite ?Hu;
             [ solve_changed | reflexivity ]]
    | solve [apply step_unsaved; cbn; use_frame; cbn;
             [ solve_changed | reflexivity | assumption ]] ].

Lemma perform_catalog_step (u : User.t) (p : Platform) (a : Action) (w : World) :
  user (auth w) = Some u ->
  catalog_step u p w (after (perform p a) w).
Proof.
  intros Hu. destruct a; cbn [perform].
  - unfold startRecording, startRecording_body. unfold_async.
    case_platform; solve_step Hu.
  - unfold stopRecording, stopRecording_body. unfold_async. rewrite Hu.
    destruct (currentRecording (audio w)) as [capture|]; [|solve_step Hu].
    case_platform; try case_save; cbn; try solve_step Hu.
  - unfold playRecording, playRecording_body. unfold_async.
    destruct (currentSound (audio w)); case_platform; solve_step Hu.
  - unfold stopPlaying. unfold_async.
    destruct (currentSound (audio w)); case_platform; solve_step Hu.
  - unfold deleteRecording, stopPlaying. unfold_async.
    destruct (is_playing_id (currentPlayingId (audio w)) recordingId);
      [destruct (currentSound (audio w))|];
      case_platform; try case_save; cbn; solve_step Hu.
  - unfold updateRecordingTitle. unfold_async.
    case_save; cbn; solve_step Hu.
  - unfold on_user_change, loadRecordings. unfold_async. rewrite Hu.
    destruct (rejects p getItem); cbn; [solve_step Hu|].
    destruct (audioRecordings (storage w)) as [[raw|all]|] eqn:Hblob; cbn.
    + destruct (truthy_string raw); cbn; apply step_same; cbn;
        (reflexivity || exact Hblob).
    + apply (step_loaded _ _ _ _ all); cbn; rewrite ?Hu;
        (reflexivity || exact Hblob).
    + apply step_same; cbn; (reflexivity || exact Hblob).
  - unfold onPlaybackStatusUpdate. unfold_async.
    destruct (isLoaded status); [|solve_step Hu].
    destruct (didJustFinish status); solve_step Hu.
Qed.

Lemma perform_auth (p : Platform) (a : Action) (w : World) :
  auth (after (perform p a) w) = auth w /\
  userData (storage (after (perform p a) w)) = userData (storage w) /\
  userToken (storage (after (perform p a) w)) = userToken (storage w).
Proof.
  destruct a; cbn [perform].
  - unfold startRecording, startRecording_body. unfold_async.
    case_platform; repeat split.
  - unfold stopRecording, stopRecording_body. unfold_async.
    destruct (user (auth w)) as [u|];
      destruct (currentRecording (audio w)) as [capture|]; try (repeat split).
    all: case_platform; try case_save; cbn; use_frame; repeat split.
  - unfold playRecording, playRecording_body. unfold_async.
    destruct (currentSound (audio w)); case_platform; repeat split.
  - unfold stopPlaying. unfold_async.
    destruct (currentSound (audio w)); case_platform; repeat split.
  - unfold deleteRecording, stopPlaying. unfold_async.
    destruct (is_playing_id (currentPlayingId (audio w)) recordingId);
      [destruct (currentSound (audio w))|];
      case_platform; try case_save; cbn; use_frame; repeat split.
  - unfold updateRecordingTitle. unfold_async.
    case_save; cbn; use_frame; repeat split.
  - unfold on_user_change, loadRecordings. unfold_async.
    destruct (user (auth w)); [|repeat split].
    destruct (rejects p getItem); cbn; [repeat split|].
    destruct (audioRecordings (storage w)) as [[raw|all]|]; cbn;
      [destruct (truthy_string raw)| |]; repeat split.
  - unfold onPlaybackStatusUpdate. unfold_async.
    destruct (isLoaded status); [|repeat split].
    destruct (didJustFinish status); repeat split.
Qed.

Lemma retitle_userId (recordingId newTitle : string) (r : Recording.t) :
  Recording.userId (retitle recordingId newTitle r) = Recording.userId r.
Proof. unfold retitle. destruct (has_id recordingId r); reflexivity. Qed.

Lemma changed_owned (u : User.t) (old new : list Recording.t) :
  Forall (owns u) old -> changed u old new -> Forall (owns u) new.
Proof.
  intros Hold [(entry & Hentry & ->) | [(f & ->) | (i & t & ->)]].
  - apply Forall_app. split; [exact Hold|]. constructor; [exact Hentry|constructor].
  - apply Forall_forall. intros r Hr. apply filter_In in Hr as [Hr _].
    revert r Hr. apply Forall_forall. exact Hold.
  - apply Forall_forall. intros r Hr. apply in_map_iff in Hr as (r0 & <- & Hr0).
    unfold owns. rewrite retitle_userId.
    revert r0 Hr0. apply Forall_forall. exact Hold.
Qed.

Lemma filter_owned_by_owned (u : User.t) (all : list Recording.t) :
  Forall (owns u) (filter (owned_by (User.id u)) all).
Proof.
  apply Forall_forall. intros r Hr. apply filter_In in Hr as [_ Hr].
  apply String.eqb_eq. exact Hr.
Qed.

Lemma step_owned (u : User.t) (p : Platform) (w w' : World) :
  catalog_step u p w w' ->
  auth w' = auth w ->
  catalog_owned u w -> catalog_owned u w'.
Proof.
  intros Hstep Hauth [Hu Hown]. split; [rewrite Hauth; exact Hu|].
  destruct Hstep as [Hr _ | all _ Hr _ | Hch _ | Hch _ _].
  - rewrite Hr. exact Hown.
  - rewrite Hr. apply filter_owned_by_owned.
  - apply (changed_owned u _ _ Hown Hch).
  - apply (changed_owned u _ _ Hown Hch).
Qed.

(** The entries of [uid] in the other users' entries followed by
    recordings of [u]. *)
Lemma merged_entries (u : User.t) (uid : string) (all rs : list Recording.t) :
  Forall (owns u) rs ->
  filter (owned_by uid)
         (filter (fun rec => negb (is_user (Some u) rec)) all ++ rs)
  = if String.eqb (User.id u) uid then rs else filter (owned_by uid) all.
Proof.
  intros Hown. rewrite filter_app, filter_filter.
  destruct (String.eqb_spec (User.id u) uid) as [E|E].
  - subst uid. rewrite filter_none, filter_all; [reflexivity| |].
    + eapply Forall_impl; [|exact Hown]. intros r Hr.
      unfold owned_by. apply String.eqb_eq. exact Hr.
    + apply Forall_forall. intros r _. unfold owned_by, is_user.
      destruct (Recording.userId r =? User.id u)%string; reflexivity.
  - rewrite (filter_none _ rs), app_nil_r.
    + apply filter_ext_in. intros r _. unfold owned_by, is_user.
      destruct (String.eqb_spec (Recording.userId r) uid) as [E1|E1];
        [|reflexivity].
      destruct (String.eqb_spec (Recording.userId r) (User.id u)) as [E2|E2];
        [congruence|reflexivity].
    + eapply Forall_impl; [|exact Hown]. intros r Hr.
      unfold owned_by. apply String.eqb_neq. unfold owns in Hr. congruence.
Qed.

Lemma step_isolated (u : User.t) (p : Platform) (w w' : World) (uid : string) :
  catalog_step u p w w' ->
  catalog_owned u w ->
  uid <> User.id u ->
  persisted_for uid w' = persisted_for uid w.
Proof.
  intros Hstep [Hu Hown] Hother.
  assert (Hsame : audioRecordings (storage w') = audioRecordings (storage w) ->
                  persisted_for uid w' = persisted_for uid w).
  { unfold persisted_for. intros ->. reflexivity. }
  destruct Hstep as [_ Hb | all _ _ Hb | Hch Hb | Hch Hb _]; auto.
  pose proof (changed_owned u _ _ Hown Hch) as Hown'.
  rewrite !persisted_for_entries. unfold blob_entries at 1. rewrite Hb.
  rewrite (merged_entries u uid _ _ Hown').
  destruct (String.eqb_spec (User.id u) uid) as [E|E]; [congruence|reflexivity].
Qed.

Lemma in_sync_owned (u : User.t) (w : World) :
  in_sync u w -> catalog_owned u w.
Proof.
  intros [Hu Hr]. split; [exact Hu|]. rewrite Hr, persisted_for_entries.
  apply filter_owned_by_owned.
Qed.

Lemma step_in_sync (u : User.t) (p : Platform) (w w' : World) :
  catalog_step u p w w' ->
  auth w' = auth w ->
  store_resolves p ->
  in_sync u w /\ blob_readable w ->
  in_sync u w' /\ blob_readable w'.
Proof.
  intros Hstep Hauth Hstore [Hsync Hblob].
  pose proof (in_sync_owned u w Hsync) as [_ Hown].
  destruct Hsync as [Hu Hr].
  assert (Hu' : user (auth w') = Some u) by (rewrite Hauth; exact Hu).
  destruct Hstep as [Hc Hb | all Hall Hc Hb | Hch Hb | Hch Hb Hno].
  - split; [split; [exact Hu'|]|].
    + rewrite Hc, Hr. unfold persisted_for. rewrite Hb. reflexivity.
    + unfold blob_readable in *. rewrite Hb. exact Hblob.
  - split; [split; [exact Hu'|]|].
    + rewrite Hc. unfold persisted_for. rewrite Hb, Hall. reflexivity.
    + unfold blob_readable in *. rewrite Hb. exact Hblob.
  - pose proof (changed_owned u _ _ Hown Hch) as Hown'.
    split; [split; [exact Hu'|]|].
    + rewrite persisted_for_entries. unfold blob_entries at 1. rewrite Hb.
      rewrite (merged_entries u _ _ _ Hown'), String.eqb_refl. reflexivity.
    + unfold blob_readable. rewrite Hb. exact I.
  - exfalso. exact (Hno Hstore Hblob).
Qed.

(** *** Invariants of a session *)

(** X3. While the user does not change, the catalog holds recordings of
    that user only: if it does before a session, it does after it,
    whatever the actions and whatever the platform answers. *)
Theorem session_catalog_owned (steps : list (Platform * Action)) (u : User.t)
    (w : World) :
  catalog_owned u w ->
  catalog_owned u (after (session steps) w).
Proof.
  apply (session_invariant (catalog_owned u) (fun _ => True)).
  - intros p a v _ Hv.
    apply (step_owned u p v); [|apply perform_auth|exact Hv].
    apply perform_catalog_step. apply Hv.
  - apply Forall_forall. intros; exact I.
Qed.

(** X4. No action of one user's session touches what is persisted for
    anybody else: after any session, whatever the platform answers (failed
    saves included), the blob holds for every other user id exactly the
    entries, in the order, it held before. *)
Theorem session_preserves_other_users (steps : list (Platform * Action))
    (u : User.t) (w : World) (uid : string) :
  catalog_owned u w ->
  uid <> User.id u ->
  persisted_for uid (after (session steps) w) = persisted_for uid w.
Proof.
  intros Hown Hother.
  apply (session_invariant
           (fun v => catalog_owned u v /\ persisted_for uid v = persisted_for uid w)
           (fun _ => True)).
  - intros p a v _ [Hv Hp].
    pose proof (perform_catalog_step u p a v (proj1 Hv)) as Hstep.
    split.
    + apply (step_owned u p v); [exact Hstep|apply perform_auth|exact Hv].
    + rewrite <- Hp. apply (step_isolated u p v); assumption.
  - apply Forall_forall. intros; exact I.
  - split; [exact Hown|reflexivity].
Qed.

(** X5. When the store answers at every step and the blob was readable,
    the catalog on screen and the user's persisted entries stay equal
    through any session: recordings, renames and deletions that the
    provider shows are the ones a reload finds, so [loadForUser] after
    the session yields the catalog unchanged. *)
Theorem session_in_sync (steps : list (Platform * Action)) (u : User.t)
    (w : World) (p' : Platform) :
  in_sync u w ->
  blob_readable w ->
  Forall (fun step => store_resolves (fst step)) steps ->
  let w' := after (session steps) w in
  in_sync u w' /\
  result (loadForUser p' u) w' = Returned (recordings (audio w')).
Proof.
  intros Hsync Hblob Hsteps w'.
  assert (H : in_sync u w' /\ blob_readable w').
  { apply (session_invariant (fun v => in_sync u v /\ blob_readable v)
                             store_resolves).
    - intros p a v Hp Hv.
      apply (step_in_sync u p v); [|apply perform_auth|exact Hp|exact Hv].
      apply perform_catalog_step. apply Hv.
    - exact Hsteps.
    - split; assumption. }
  destruct H as [Hsync' Hblob']. split; [exact Hsync'|].
  rewrite loadForUser_result. destruct Hsync' as [_ Hr].
  unfold persisted_for in Hr.
  destruct (audioRecordings (storage w')) as [[raw|all]|]; try reflexivity.
  destruct (rejects p' getItem); [reflexivity|]. rewrite <- Hr. reflexivity.
Qed.

(** X6. Recording, playing, renaming and deleting never sign anybody in
    or out: after any session the provider's user, the persisted profile
    and the token are what they were. *)
Theorem session_keeps_auth (steps : list (Platform * Action)) (w : World) :
  let w' := after (session steps) w in
  auth w' = auth w /\
  userData (storage w') = userData (storage w) /\
  userToken (storage w') = userToken (storage w).
Proof.
  apply (session_invariant
           (fun v => auth v = auth w /\
                     userData (storage v) = userData (storage w) /\
                     userToken (storage v) = userToken (storage w))
           (fun _ => True)).
  - intros p a v _ (H1 & H2 & H3).
    destruct (perform_auth p a v) as (E1 & E2 & E3).
    rewrite E1, E2, E3. auto.
  - apply Forall_forall. intros; exact I.
  - auto.
Qed.

Lemma session_catalog_owned_witness :
  catalog_owned alice (after (session evening) shared_phone).
Proof.
  apply session_catalog_owned.
  split; [reflexivity|]. repeat constructor.
Defined.

Lemma session_preserves_other_users_witness :
  persisted_for (User.id bob) (after (session evening) shared_phone) = [bob_take].
Proof.
  rewrite (session_preserves_other_users evening alice shared_phone (User.id bob)).
  - reflexivity.
  - split; [reflexivity|]. repeat constructor.
  - discriminate.
Defined.

Lemma session_in_sync_witness :
  result (loadForUser resolving alice)
         (after (session quiet_evening) (library alice []))
  = Returned (recordings (audio (after (session quiet_evening) (library alice [])))).
Proof.
  apply (session_in_sync quiet_evening alice (library alice []) resolving).
  - split; reflexivity.
  - exact I.
  - repeat constructor.
Defined.

Ltac solve_cells H :=
  unfold cells_consistent in *; cbn; use_frame; cbn;
  destruct H as [[? ?] ?];
  repeat split; intros; try congruence; auto.

Lemma perform_cells (p : Platform) (a : Action) (w : World) :
  cells_consistent (audio w) ->
  cells_consistent (audio (after (perform p a) w)).
Proof.
  intros H. destruct a; cbn [perform].
  - unfold startRecording, startRecording_body. unfold_async.
    case_platform; solve_cells H.
  - unfold stopRecording, stopRecording_body. unfold_async.
    destruct (user (auth w)) as [u|];
      destruct (currentRecording (audio w)) as [capture|] eqn:Hcap;
      try solve [solve_cells H].
    case_platform; try case_save; cbn; solve_cells H.
  - unfold playRecording, playRecording_body. unfold_async.
    destruct (currentSound (audio w)) eqn:Hs; case_platform; solve_cells H.
  - unfold stopPlaying. unfold_async.
    destruct (currentSound (audio w)) eqn:Hs; case_platform; solve_cells H.
  - unfold deleteRecording, stopPlaying. unfold_async.
    destruct (is_playing_id (currentPlayingId (audio w)) recordingId);
      [destruct (currentSound (audio w)) eqn:Hs|];
      case_platform; try case_save; cbn; solve_cells H.
  - unfold updateRecordingTitle. unfold_async.
    case_save; cbn; solve_cells H.
  - unfold on_user_change, loadRecordings. unfold_async.
    destruct (user (auth w)); [|exact H].
    destruct (rejects p getItem); cbn; [exact H|].
    destruct (audioRecordings (storage w)) as [[raw|all]|]; cbn;
      [destruct (truthy_string raw)| |]; exact H.
  - unfold onPlaybackStatusUpdate. unfold_async.
    destruct (isLoaded status); [|exact H].
    destruct (didJustFinish status); solve_cells H.
Qed.

(** X7. The session cells never disagree.  From start-up on, through any
    session and whatever the platform answers, the recording flag is up
    exactly while the provider holds a capture handle, and an id is
    tracked as playing only while it holds a sound handle. *)
Theorem session_cells_consistent (steps : list (Platform * Action)) (w : World) :
  cells_consistent (audio (after (session steps) (restart w))).
Proof.
  apply (session_invariant (fun v => cells_consistent (audio v)) (fun _ => True)).
  - intros p a v _. apply perform_cells.
  - apply Forall_forall. intros; exact I.
  - unfold cells_consistent. cbn. repeat split; intros; congruence.
Qed.

(** *** Stopping playback *)

(** X8. [stopPlaying] with no sound handle held changes nothing at all.
    With a handle held and the device answering, the sound is stopped,
    then unloaded, and the playback cells are reset; this also releases
    the handle a finished playback left behind.  If the device rejects
    the stop or the unload, a notice is raised and the playback cells
    stay as they were.  In no case are the catalog, the store or the
    files touched. *)
Theorem stopPlaying_releases (p : Platform) (w : World) :
  let w' := after (stopPlaying p) w in
  (currentSound (audio w) = None -> stopPlaying p w = (w, Returned tt)) /\
  (forall sound,
      currentSound (audio w) = Some sound ->
      rejects p stopAsync = false ->
      rejects p unloadAsync = false ->
      playback_idle (audio w') /\
      ~ In sound (openSounds (device w')) /\
      events w' = UnloadedSound sound :: StoppedSound sound :: events w) /\
  (forall sound,
      currentSound (audio w) = Some sound ->
      rejects p stopAsync = true \/ rejects p unloadAsync = true ->
      audio w' = audio w /\
      openSounds (device w') = openSounds (device w) /\
      exists e rest,
        events w' = Alerted "Error" "Failed to stop playback"
                    :: ConsoleError "Error stopping playback:" e :: rest) /\
  recordings (audio w') = recordings (audio w) /\
  storage w' = storage w /\
  files (device w') = files (device w).
Proof.
  cbv zeta. unfold stopPlaying. unfold_async.
  split; [|split; [|split]].
  - intros ->. reflexivity.
  - intros sound -> Hstop Hunload. rewrite Hstop. cbn. rewrite Hunload. cbn.
    unfold playback_idle. cbn. repeat split. apply remove_handle_not_in.
  - intros sound -> [H|H].
    + rewrite H. cbn. repeat split. do 2 eexists. reflexivity.
    + destruct (rejects p stopAsync); cbn.
      * repeat split. do 2 eexists. reflexivity.
      * rewrite H. cbn. repeat split. do 2 eexists. reflexivity.
  - destruct (currentSound (audio w)); case_platform; repeat split.
Qed.

Lemma stopPlaying_releases_witness :
  playback_idle (audio (after (stopPlaying resolving) listening)) /\
  ~ In 0 (openSounds (device (after (stopPlaying resolving) listening))).
Proof.
  destruct (stopPlaying_releases resolving listening) as (_ & H & _).
  destruct (H 0) as (Hidle & Hgone & _); try reflexivity.
  split; [exact Hidle | exact Hgone].
Defined.

(** *** Deleting twice *)

Lemma find_filtered_none (recordingId : string) (l : list Recording.t) :
  find (has_id recordingId) (filter (fun r => negb (has_id recordingId r)) l)
  = None.
Proof.
  apply find_has_id_none, filtered_id_absent.
Qed.

Lemma is_playing_id_true (current : option string) (recordingId : string) :
  is_playing_id current recordingId = true <-> current = Some recordingId.
Proof.
  destruct current as [i|]; cbn; [|split; discriminate].
  rewrite String.eqb_eq. split; congruence.
Qed.

(** What [deleteRecording] does when the id is not in the catalog and
    either is not the one tracked as playing or no sound is held. *)
Lemma deleteRecording_nothing_to_do (p : Platform) (recordingId : string)
    (w : World) :
  find (has_id recordingId) (recordings (audio w)) = None ->
  currentPlayingId (audio w) <> Some recordingId \/ currentSound (audio w) = None ->
  deleteRecording p recordingId w = (w, Returned tt).
Proof.
  intros Hfind Hplay. unfold deleteRecording, stopPlaying. unfold_async.
  destruct (is_playing_id (currentPlayingId (audio w)) recordingId) eqn:Hid.
  - apply is_playing_id_true in Hid. destruct Hplay as [H|H]; [congruence|].
    rewrite H. cbn. rewrite Hfind. reflexivity.
  - cbn. rewrite Hfind. reflexivity.
Qed.

(** X9. Deleting is idempotent.  Once [deleteRecording] has run for an
    id with the device and the filesystem answering (the save may fail),
    a second [deleteRecording] for the same id changes nothing: no second
    file deletion, no write, no notice. *)
Theorem deleteRecording_twice (p p' : Platform) (recordingId : string) (w : World) :
  rejects p stopAsync = false ->
  rejects p unloadAsync = false ->
  rejects p deleteAsync = false ->
  let w1 := after (deleteRecording p recordingId) w in
  deleteRecording p' recordingId w1 = (w1, Returned tt).
Proof.
  intros Hstop Hunload Hdelete w1.
  apply deleteRecording_nothing_to_do; subst w1;
    unfold deleteRecording, stopPlaying; unfold_async.
  - destruct (is_playing_id (currentPlayingId (audio w)) recordingId);
      [destruct (currentSound (audio w))|];
      rewrite ?Hstop; cbn; rewrite ?Hunload; cbn;
      (destruct (find (has_id recordingId) (recordings (audio w))) eqn:Hfind;
       cbn; [rewrite Hdelete; cbn; case_save; cbn; use_frame; cbn;
             apply find_filtered_none | exact Hfind]).
  - destruct (is_playing_id (currentPlayingId (audio w)) recordingId) eqn:Hid;
      [destruct (currentSound (audio w)) eqn:Hsound|];
      rewrite ?Hstop; cbn; rewrite ?Hunload; cbn;
      (destruct (find (has_id recordingId) (recordings (audio w)));
       cbn; [rewrite Hdelete; cbn; case_save; cbn; use_frame; cbn|]).
    all: try (left; discriminate).
    all: try (right; first [reflexivity | exact Hsound]).
    all: left; intros E; apply is_playing_id_true in E; congruence.
Qed.

Lemma deleteRecording_twice_witness :
  deleteRecording store_full "1700000000000"
    (after (deleteRecording resolving "1700000000000") listening)
  = (after (deleteRecording resolving "1700000000000") listening, Returned tt).
Proof.
  apply (deleteRecording_twice resolving store_full "1700000000000" listening);
    reflexivity.
Defined.

(** *** Changes the store did not take *)

Lemma perform_storage_unsaved (p : Platform) (a : Action) (w : World) :
  rejects p setItem = true ->
  storage (after (perform p a) w) = storage w.
Proof.
  intros Hset.
  assert (Hno : ~ store_resolves p).
  { intros [_ H]. congruence. }
  destruct a; cbn [perform].
  - unfold startRecording, startRecording_body. unfold_async.
    case_platform; reflexivity.
  - unfold stopRecording, stopRecording_body. unfold_async.
    destruct (user (auth w)) as [u|];
      destruct (currentRecording (audio w)) as [capture|]; try reflexivity.
    case_platform; try case_save; cbn; use_frame; try reflexivity; contradiction.
  - unfold playRecording, playRecording_body. unfold_async.
    destruct (currentSound (audio w)); case_platform; reflexivity.
  - unfold stopPlaying. unfold_async.
    destruct (currentSound (audio w)); case_platform; reflexivity.
  - unfold deleteRecording, stopPlaying. unfold_async.
    destruct (is_playing_id (currentPlayingId (audio w)) recordingId);
      [destruct (currentSound (audio w))|];
      case_platform; try case_save; cbn; use_frame; try reflexivity;
      contradiction.
  - unfold updateRecordingTitle. unfold_async.
    case_save; cbn; use_frame; try reflexivity; contradiction.
  - unfold on_user_change, loadRecordings. unfold_async.
    destruct (user (auth w)); [|reflexivity].
    destruct (rejects p getItem); cbn; [reflexivity|].
    destruct (audioRecordings (storage w)) as [[raw|all]|]; cbn;
      [destruct (truthy_string raw)| |]; reflexivity.
  - unfold onPlaybackStatusUpdate. unfold_async.
    destruct (isLoaded status); [|reflexivity].
    destruct (didJustFinish status); reflexivity.
Qed.

Lemma loadRecordings_json (p : Platform) (w : World) (u : User.t)
    (all : list Recording.t) :
  rejects p getItem = false ->
  audioRecordings (storage w) = Some (Json all) ->
  user (auth w) = Some u ->
  recordings (audio (after (loadRecordings p) w)) = filter (owned_by (User.id u)) all /\
  device (after (loadRecordings p) w) = device w.
Proof.
  intros Hget Hblob Hu. unfold loadRecordings. unfold_async.
  rewrite Hget. cbn. rewrite Hblob. cbn. rewrite Hu. split; reflexivity.
Qed.

(** X10. A change the store did not take does not survive a reload.  The
    catalog shows what is persisted, the blob is there, and the store
    rejects writes during an action (a new recording, a rename, a
    deletion): the blob is left as it was, so the next load of the
    catalog puts back exactly the catalog of before the action. *)
Theorem rejected_save_is_undone_by_reload (p p' : Platform) (a : Action)
    (u : User.t) (w : World) (all : list Recording.t) :
  in_sync u w ->
  audioRecordings (storage w) = Some (Json all) ->
  rejects p setItem = true ->
  rejects p' getItem = false ->
  let w1 := after (perform p a) w in
  let w2 := after (loadRecordings p') w1 in
  storage w1 = storage w /\
  recordings (audio w2) = recordings (audio w).
Proof.
  intros [Hu Hsync] Hblob Hset Hget w1 w2.
  assert (Hst : storage w1 = storage w) by (apply perform_storage_unsaved, Hset).
  split; [exact Hst|].
  destruct (perform_auth p a w) as (Hauth & _).
  destruct (loadRecordings_json p' w1 u all) as [Hr _]; auto.
  - rewrite Hst. exact Hblob.
  - unfold w1. rewrite Hauth. exact Hu.
  - unfold w2. rewrite Hr, Hsync. unfold persisted_for. rewrite Hblob.
    reflexivity.
Qed.

Lemma rejected_save_is_undone_by_reload_witness :
  recordings
    (audio (after (loadRecordings resolving)
              (after (perform store_full
                        (UpdateRecordingTitle "1700000000000" "My Take"))
                     (library alice [alice_take]))))
  = [alice_take].
Proof.
  apply (rejected_save_is_undone_by_reload store_full resolving
           (UpdateRecordingTitle "1700000000000" "My Take") alice
           (library alice [alice_take]) [alice_take]); try reflexivity.
  split; reflexivity.
Defined.

Lemma rejected_step_facts (p : Platform) (recordingId : string)
    (r : Recording.t) (w : World) :
  find (has_id recordingId) (recordings (audio w)) = Some r ->
  currentPlayingId (audio w) <> Some recordingId ->
  rejects p deleteAsync = false ->
  rejects p setItem = true ->
  let w1 := after (deleteRecording p recordingId) w in
  recordings (audio w1)
    = filter (fun x => negb (has_id recordingId x)) (recordings (audio w)) /\
  (exists rest,
      events w1 = Alerted "Error" "Failed to delete recording" :: rest) /\
  files (device w1) = remove_file (Recording.uri r) (files (device w)) /\
  auth w1 = auth w /\
  storage w1 = storage w.
Proof.
  intros Hfind Hplay Hdelete Hset. cbv zeta.
  assert (Hno : ~ store_resolves p).
  { intros [_ H]. congruence. }
  unfold deleteRecording. unfold_async.
  rewrite (is_playing_id_false _ _ Hplay). cbn.
  rewrite Hfind, Hdelete. cbn.
  case_save; [contradiction|]. cbn. use_frame. cbn.
  repeat split. eexists. reflexivity.
Qed.

(** X11. A deletion the store did not take brings the entry back without
    its audio.  The entry is in the catalog and persisted, nothing is
    playing it, the filesystem deletes the payload and the store rejects
    the write: the catalog drops the entry and a notice is raised, but
    after the next load the entry is listed again while its payload is
    gone from the filesystem. *)
Theorem deleteRecording_unsaved_comes_back (p p' : Platform) (u : User.t)
    (w : World) (recordingId : string) (r : Recording.t) :
  in_sync u w ->
  find (has_id recordingId) (recordings (audio w)) = Some r ->
  currentPlayingId (audio w) <> Some recordingId ->
  rejects p deleteAsync = false ->
  rejects p setItem = true ->
  rejects p' getItem = false ->
  let w1 := after (deleteRecording p recordingId) w in
  let w2 := after (loadRecordings p') w1 in
  ~ In recordingId (map Recording.id (recordings (audio w1))) /\
  (exists rest,
      events w1 = Alerted "Error" "Failed to delete recording" :: rest) /\
  In r (recordings (audio w2)) /\
  ~ In (Recording.uri r) (files (device w2)).
Proof.
  intros Hsync Hfind Hplay Hdelete Hset Hget w1 w2.
  assert (Hin : In r (recordings (audio w))).
  { apply find_some in Hfind. apply Hfind. }
  assert (Hblob : exists all, audioRecordings (storage w) = Some (Json all)).
  { destruct Hsync as [_ Hr]. rewrite Hr in Hin. unfold persisted_for in Hin.
    destruct (audioRecordings (storage w)) as [[raw|all]|];
      [destruct Hin| |destruct Hin]. eexists. reflexivity. }
  destruct Hblob as [all Hblob].
  destruct (rejected_step_facts p recordingId r w Hfind Hplay Hdelete Hset)
    as (Hcat & Hev & Hfiles & Hauth & Hst).
  fold w1 in Hcat, Hev, Hfiles, Hauth, Hst.
  destruct (loadRecordings_json p' w1 u all) as [Hr Hdev]; auto.
  - rewrite Hst. exact Hblob.
  - rewrite Hauth. apply Hsync.
  - fold w2 in Hr, Hdev. split; [|split; [exact Hev|split]].
    + rewrite Hcat. apply filtered_id_absent.
    + rewrite Hr. destruct Hsync as [_ Hs]. rewrite Hs in Hin.
      unfold persisted_for in Hin. rewrite Hblob in Hin. exact Hin.
    + rewrite Hdev, Hfiles. apply remove_file_not_in.
Qed.

Lemma deleteRecording_unsaved_comes_back_witness :
  In alice_take
     (recordings
        (audio (after (loadRecordings resolving)
                  (after (deleteRecording store_full "1700000000000")
                         (library alice [alice_take]))))) /\
  ~ In (Recording.uri alice_take)
       (files
          (device (after (loadRecordings resolving)
                     (after (deleteRecording store_full "1700000000000")
                            (library alice [alice_take]))))).
Proof.
  destruct (deleteRecording_unsaved_comes_back store_full resolving alice
              (library alice [alice_take]) "1700000000000" alice_take)
    as (_ & _ & Hin & Hfile); try reflexivity.
  - split; reflexivity.
  - discriminate.
  - split; [exact Hin | exact Hfile].
Defined.

(** *** Renaming what is not there *)

Lemma retitle_absent (recordingId newTitle : string) (l : list Recording.t) :
  ~ In recordingId (map Recording.id l) ->
  map (retitle recordingId newTitle) l = l.
Proof.
  induction l as [|r l IH]; cbn; intros H; [reflexivity|].
  rewrite IH by tauto. unfold retitle, has_id.
  destruct (String.eqb_spec (Recording.id r) recordingId) as [E|E];
    [exfalso; apply H; now left | reflexivity].
Qed.

(** X12. Renaming an id that is not in the catalog is not an error and is
    not a no-op either: the catalog is unchanged and no notice is raised,
    but when the store answers the blob is read and written again, with
    the other users' entries followed by the catalog. *)
Theorem updateRecordingTitle_absent (p : Platform) (w : World)
    (recordingId newTitle : string) :
  ~ In recordingId (map Recording.id (recordings (audio w))) ->
  store_resolves p ->
  blob_readable w ->
  let w' := after (updateRecordingTitle p recordingId newTitle) w in
  recordings (audio w') = recordings (audio w) /\
  events w' = WroteItem "audioRecordings" :: ReadItem "audioRecordings"
              :: events w /\
  audioRecordings (storage w')
  = Some (Json (filter (fun rec => negb (is_user (user (auth w)) rec))
                       (blob_entries w)
                ++ recordings (audio w))%list).
Proof.
  intros Habsent [Hget Hset] Hblob. cbv zeta.
  pose proof (retitle_absent recordingId newTitle _ Habsent) as Hmap.
  unfold retitle in Hmap.
  unfold updateRecordingTitle. unfold_async.
  rewrite saveRecordings_resolves; [|exact Hget|exact Hset|exact Hblob].
  cbn. rewrite Hmap. repeat split.
Qed.

Lemma updateRecordingTitle_absent_witness :
  recordings
    (audio (after (updateRecordingTitle resolving "1600000000000" "Lost")
                  (library alice [alice_take])))
  = [alice_take].
Proof.
  apply (updateRecordingTitle_absent resolving (library alice [alice_take])
           "1600000000000" "Lost").
  - cbn. intros [H|[]]. discriminate H.
  - split; reflexivity.
  - exact I.
Defined.

(** *** Starting a capture *)

(** X13. With the permission granted and the device answering,
    [startRecording] asks for the permission, switches the audio mode to
    recording, prepares and starts a capture on a new handle, in this
    order, and the session is capturing: the handle is held and open and
    the recording flag is up.  The catalog, the store, the files and the
    playback cells are untouched. *)
Theorem startRecording_captures (p : Platform) (w : World) :
  granted p = true ->
  rejects p requestPermissionsAsync = false ->
  rejects p setAudioModeAsync = false ->
  rejects p prepareToRecordAsync = false ->
  rejects p startAsync = false ->
  let w' := after (startRecording p) w in
  let capture := nextHandle (device w) in
  currentRecording (audio w') = Some capture /\
  isRecording (audio w') = true /\
  In capture (openCaptures (device w')) /\
  audioMode (device w') = recording_mode /\
  events w' = StartedCapture capture :: PreparedCapture capture
              :: SetAudioMode recording_mode :: RequestedPermissions
              :: events w /\
  recordings (audio w') = recordings (audio w) /\
  storage w' = storage w /\
  files (device w') = files (device w) /\
  currentSound (audio w') = currentSound (audio w) /\
  currentPlayingId (audio w') = currentPlayingId (audio w).
Proof.
  intros Hgranted H1 H2 H3 H4. cbv zeta.
  unfold startRecording, startRecording_body. unfold_async.
  rewrite H1. cbn. rewrite Hgranted. cbn. rewrite H2. cbn. rewrite H3. cbn.
  rewrite H4. cbn. repeat split. left. reflexivity.
Qed.

Lemma startRecording_captures_witness :
  currentRecording
    (audio (after (startRecording resolving) (signed_in alice fresh_install)))
  = Some 0.
Proof.
  apply (startRecording_captures resolving (signed_in alice fresh_install));
    reflexivity.
Defined.

(** *** Signing in and starting again *)

(** X14. A sign-in survives a restart.  After [login] or [register] with
    both stores accepting the writes, [checkAuthState] at the next
    start-up, the stores answering, restores exactly the profile that was
    fabricated, ends the loading state and navigates to the tabs. *)
Theorem sign_in_is_restored (p p' : Platform) (email password name : string)
    (w : World) :
  rejects p setItemAsync = false ->
  rejects p setItem = false ->
  rejects p' getItemAsync = false ->
  rejects p' getItem = false ->
  (let w1 := after (login p email password) w in
   let w2 := after (checkAuthState p') (restart w1) in
   authenticated (login_userData email) (auth w1) /\
   authenticated (login_userData email) (auth w2) /\
   loading (auth w2) = false /\
   events w2 = Navigated "/(tabs)" :: ReadItem "userData"
               :: SecureRead "userToken" :: events w1) /\
  (let w1 := after (register p email password name) w in
   let w2 := after (checkAuthState p') (restart w1) in
   authenticated (register_userData p email name) (auth w1) /\
   authenticated (register_userData p email name) (auth w2) /\
   loading (auth w2) = false /\
   events w2 = Navigated "/(tabs)" :: ReadItem "userData"
               :: SecureRead "userToken" :: events w1).
Proof.
  intros H1 H2 H3 H4. cbv zeta.
  unfold authenticated, login, register, checkAuthState, restart. unfold_async.
  rewrite H1. cbn. rewrite H2. cbn. rewrite H3. cbn. rewrite H4. cbn.
  repeat split.
Qed.

Lemma sign_in_is_restored_witness :
  authenticated alice
    (auth (after (checkAuthState resolving)
             (restart (after (login resolving "a@x.com" "hunter2")
                             fresh_install)))) /\
  authenticated bob
    (auth (after (checkAuthState resolving)
             (restart (after (register later "b@x.com" "hunter2" "Bob")
                             fresh_install)))).
Proof.
  destruct (sign_in_is_restored resolving resolving "a@x.com" "hunter2" "Bob"
              fresh_install) as ((_ & Ha & _) & _); try reflexivity.
  destruct (sign_in_is_restored later resolving "b@x.com" "hunter2" "Bob"
              fresh_install) as (_ & (_ & Hb & _)); try reflexivity.
  split; [exact Ha | exact Hb].
Defined.

(** X15. [checkAuthState] always settles.  Whatever the stores hold and
    answer, it returns normally, ends the loading state and writes
    nothing.  With the profile item absent or a profile as the providers
    write it, it signs somebody in only when a token is stored, and then
    it is the persisted profile.  With no token stored, or an empty one,
    it leaves the user as it is and navigates to the login screen.  With
    a token stored but no profile item, nobody is signed in and no
    navigation takes place, neither to the tabs nor to the login
    screen. *)
Theorem checkAuthState_settles (p : Platform) (w : World) :
  let w' := after (checkAuthState p) w in
  result (checkAuthState p) w = Returned tt /\
  loading (auth w') = false /\
  storage w' = storage w /\
  (userData (storage w) = None \/
   (exists u, userData (storage w) = Some (Json u)) ->
   user (auth w') = user (auth w) \/
   exists token u,
     userToken (storage w) = Some token /\ token <> EmptyString /\
     userData (storage w) = Some (Json u) /\
     user (auth w') = Some u) /\
  (rejects p getItemAsync = false ->
   userToken (storage w) = None \/ userToken (storage w) = Some EmptyString ->
   user (auth w') = user (auth w) /\
   events w' = Navigated "/login" :: SecureRead "userToken" :: events w) /\
  (forall token,
      userToken (storage w) = Some token -> token <> EmptyString ->
      rejects p getItemAsync = false ->
      userData (storage w) = None ->
      user (auth w') = user (auth w) /\
      exists new,
        events w' = (new ++ events w)%list /\
        forall path, ~ In (Navigated path) new).
Proof.
  cbv zeta. unfold checkAuthState. unfold_async.
  split; [|split; [|split; [|split; [|split]]]].
  - destruct (rejects p getItemAsync); cbn; [reflexivity|].
    destruct (userToken (storage w)) as [t|]; cbn; [|reflexivity].
    destruct (truthy_string t); cbn; [|reflexivity].
    destruct (rejects p getItem); cbn; [reflexivity|].
    destruct (userData (storage w)) as [[raw|u]|]; cbn;
      [destruct (truthy_string raw)| |]; reflexivity.
  - destruct (rejects p getItemAsync); cbn; [reflexivity|].
    destruct (userToken (storage w)) as [t|]; cbn; [|reflexivity].
    destruct (truthy_string t); cbn; [|reflexivity].
    destruct (rejects p getItem); cbn; [reflexivity|].
    destruct (userData (storage w)) as [[raw|u]|]; cbn;
      [destruct (truthy_string raw)| |]; reflexivity.
  - destruct (rejects p getItemAsync); cbn; [reflexivity|].
    destruct (userToken (storage w)) as [t|]; cbn; [|reflexivity].
    destruct (truthy_string t); cbn; [|reflexivity].
    destruct (rejects p getItem); cbn; [reflexivity|].
    destruct (userData (storage w)) as [[raw|u]|]; cbn;
      [destruct (truthy_string raw)| |]; reflexivity.
  - intros Hprofile.
    destruct (rejects p getItemAsync); cbn; [left; reflexivity|].
    destruct (userToken (storage w)) as [t|]; cbn; [|left; reflexivity].
    destruct (truthy_string t) eqn:Ht; cbn; [|left; reflexivity].
    apply truthy_string_true in Ht.
    destruct (rejects p getItem); cbn; [left; reflexivity|].
    destruct Hprofile as [-> | [u ->]]; cbn; [left; reflexivity|].
    right. exists t, u. repeat split. exact Ht.
  - intros Hget Htoken. rewrite Hget. cbn.
    destruct Htoken as [-> | ->]; cbn; split; reflexivity.
  - intros token Htoken Hne Hget Hprofile. rewrite Hget. cbn.
    rewrite Htoken. cbn. apply truthy_string_true in Hne. rewrite Hne. cbn.
    destruct (rejects p getItem); cbn.
    { split; [reflexivity|].
      exists [ConsoleError "Auth state check failed:"
                           "AsyncStorage.getItem rejected";
              SecureRead "userToken"].
      split; [reflexivity|]. intros path [H|[H|[]]]; discriminate H. }
    rewrite Hprofile. cbn. split; [reflexivity|].
    exists [ReadItem "userData"; SecureRead "userToken"].
    split; [reflexivity|]. intros path [H|[H|[]]]; discriminate H.
Qed.

Lemma checkAuthState_settles_witness :
  user (auth (after (checkAuthState resolving)
                (restart (after (login profile_store_full "a@x.com" "hunter2")
                                fresh_install))))
  = None.
Proof.
  destruct (checkAuthState_settles resolving
              (restart (after (login profile_store_full "a@x.com" "hunter2")
                              fresh_install)))
    as (_ & _ & _ & _ & _ & H).
  destruct (H "dummy-token") as [Hu _];
    [reflexivity | discriminate | reflexivity | reflexivity | exact Hu].
Defined.

(** X16. [login] does not catch what the stores reject, and it writes
    the token first.  If the token store rejects, the call
    throws and nothing has changed.  If the token is written and the
    profile write is rejected, the call throws with nobody signed in but
    the token stored; at the next start-up, with no profile persisted,
    [checkAuthState] then signs nobody in and navigates nowhere. *)
Theorem login_half_written (p p' : Platform) (email password : string)
    (w : World) :
  (rejects p setItemAsync = true ->
   login p email password w
   = (w, Thrown "SecureStore.setItemAsync rejected")) /\
  (rejects p setItemAsync = false ->
   rejects p setItem = true ->
   let w1 := after (login p email password) w in
   result (login p email password) w = Thrown "AsyncStorage.setItem rejected" /\
   user (auth w1) = user (auth w) /\
   userToken (storage w1) = Some "dummy-token" /\
   userData (storage w1) = userData (storage w) /\
   (userData (storage w) = None ->
    rejects p' getItemAsync = false ->
    rejects p' getItem = false ->
    let w2 := after (checkAuthState p') (restart w1) in
    unauthenticated (auth w2) /\
    loading (auth w2) = false /\
    events w2 = ReadItem "userData" :: SecureRead "userToken" :: events w1)).
Proof.
  split.
  - intros H. unfold login. unfold_async. rewrite H. reflexivity.
  - intros H1 H2. cbv zeta.
    unfold unauthenticated, login, checkAuthState, restart. unfold_async.
    rewrite H1. cbn. rewrite H2. cbn.
    do 4 (split; [reflexivity|]).
    intros Hnone Ha Hb. rewrite Ha. cbn. rewrite Hb. cbn. rewrite Hnone.
    repeat split.
Qed.

Lemma login_half_written_witness :
  result (login profile_store_full "a@x.com" "hunter2") fresh_install
    = Thrown "AsyncStorage.setItem rejected" /\
  userToken (storage (after (login profile_store_full "a@x.com" "hunter2")
                            fresh_install))
    = Some "dummy-token".
Proof.
  destruct (login_half_written profile_store_full resolving "a@x.com" "hunter2"
              fresh_install) as [_ H].
  destruct H as (Hthrown & _ & Htoken & _); try reflexivity.
  split; [exact Hthrown | exact Htoken].
Defined.

(** *** Settings *)

(** X17. [updateUserSettings] does nothing when nobody is signed in.
    For a signed-in user whose profile write is accepted, it replaces the
    settings and keeps the id, the email and the name, in memory and in
    the persisted profile alike, and touches neither the token nor
    anything of the audio provider.  When the write is rejected, it
    throws and nothing has changed. *)
Theorem updateUserSettings_replaces (p : Platform) (settings : Settings)
    (w : World) :
  (user (auth w) = None -> updateUserSettings p settings w = (w, Returned tt)) /\
  (forall u,
      user (auth w) = Some u ->
      rejects p setItem = false ->
      let w' := after (updateUserSettings p settings) w in
      let u' := with_settings settings u in
      result (updateUserSettings p settings) w = Returned tt /\
      user (auth w') = Some u' /\
      userData (storage w') = Some (Json u') /\
      User.settings u' = settings /\
      User.id u' = User.id u /\ User.email u' = User.email u /\
      User.name u' = User.name u /\
      userToken (storage w') = userToken (storage w) /\
      audioRecordings (storage w') = audioRecordings (storage w) /\
      audio w' = audio w /\ device w' = device w) /\
  (forall u,
      user (auth w) = Some u ->
      rejects p setItem = true ->
      updateUserSettings p settings w
      = (w, Thrown "AsyncStorage.setItem rejected")).
Proof.
  unfold updateUserSettings. unfold_async. split; [|split].
  - intros ->. reflexivity.
  - intros u -> Hset. rewrite Hset. cbn. repeat split.
  - intros u -> Hset. rewrite Hset. reflexivity.
Qed.

Lemma updateUserSettings_replaces_witness :
  user (auth (after (updateUserSettings resolving (mkSettings dark false true))
                    (library alice [])))
  = Some (with_settings (mkSettings dark false true) alice).
Proof.
  destruct (updateUserSettings_replaces resolving (mkSettings dark false true)
              (library alice [])) as (_ & H & _).
  destruct (H alice) as (_ & Hu & _); [reflexivity | reflexivity | exact Hu].
Defined.

(** *** Signing out *)

(** X18. [logout] touches nothing of the audio provider: the catalog in
    memory, an open capture or sound and the persisted recordings are as
    before, and since the provider reloads only for a signed-in user, the
    catalog of the user who left stays in memory.  [logout] does not
    catch what the stores reject: if the token store rejects, nothing
    has changed; if the token is deleted and the profile removal is
    rejected, the call throws with the user still held in memory and no
    navigation. *)
Theorem logout_leaves_audio (p p' : Platform) (w : World) :
  (audio (after (logout p) w) = audio w /\
   device (after (logout p) w) = device w /\
   audioRecordings (storage (after (logout p) w))
     = audioRecordings (storage w)) /\
  (rejects p deleteItemAsync = false ->
   rejects p removeItem = false ->
   let w' := after (logout p ;; on_user_change p') w in
   user (auth w') = None /\
   recordings (audio w') = recordings (audio w) /\
   events w' = Navigated "/login" :: RemovedItem "userData"
               :: SecureDeleted "userToken" :: events w) /\
  (rejects p deleteItemAsync = true ->
   logout p w = (w, Thrown "SecureStore.deleteItemAsync rejected")) /\
  (rejects p deleteItemAsync = false ->
   rejects p removeItem = true ->
   let w' := after (logout p) w in
   result (logout p) w = Thrown "AsyncStorage.removeItem rejected" /\
   userToken (storage w') = None /\
   userData (storage w') = userData (storage w) /\
   user (auth w') = user (auth w) /\
   events w' = SecureDeleted "userToken" :: events w).
Proof.
  unfold logout, on_user_change. unfold_async.
  split; [|split; [|split]].
  - destruct (rejects p deleteItemAsync); cbn; [repeat split|].
    destruct (rejects p removeItem); cbn; repeat split.
  - intros H1 H2. rewrite H1. cbn. rewrite H2. cbn. repeat split.
  - intros H. rewrite H. reflexivity.
  - intros H1 H2. rewrite H1. cbn. rewrite H2. cbn. repeat split.
Qed.

Lemma logout_leaves_audio_witness :
  recordings
    (audio (after (logout resolving ;; on_user_change resolving)
                  (library alice [alice_take])))
  = [alice_take].
Proof.
  destruct (logout_leaves_audio resolving resolving (library alice [alice_take]))
    as (_ & H & _).
  destruct H as (_ & Hcat & _); [reflexivity | reflexivity | exact Hcat].
Defined.

(** *** Who is who *)

(** X19. Every [login] is the same user to the catalog.  The id that
    [login] fabricates does not depend on the email, so what is saved in
    a session opened with one email is exactly what [loadForUser] yields
    in a session opened with any other email. *)
Theorem logins_share_catalog (p p' : Platform) (email1 email2 : string)
    (rs : list Recording.t) (w : World) :
  Forall (owns (login_userData email1)) rs ->
  store_resolves p ->
  blob_readable w ->
  rejects p' getItem = false ->
  User.id (login_userData email1) = User.id (login_userData email2) /\
  result (loadForUser p' (login_userData email2))
         (after (saveForUser p (login_userData email1) rs) w)
  = Returned rs.
Proof.
  intros Hown [Hget Hset] Hblob Hget'. split; [reflexivity|].
  rewrite loadForUser_result.
  unfold saveForUser, after. unfold bind at 1. unfold setUser, modify.
  rewrite saveRecordings_resolves; [|exact Hget|exact Hset|exact Hblob].
  cbn [fst].
  match goal with
  | |- context [saved rs ?v] =>
      assert (Hb : audioRecordings (storage (saved rs v))
                   = Some (Json (filter (fun rec =>
                                   negb (is_user (Some (login_userData email1)) rec))
                                  (blob_entries w) ++ rs)%list))
        by reflexivity;
      rewrite Hb
  end.
  rewrite Hget', (merged_entries (login_userData email1) _ _ _ Hown).
  reflexivity.
Qed.

Lemma logins_share_catalog_witness :
  result (loadForUser resolving (login_userData "b@y.org"))
         (after (saveForUser resolving (login_userData "a@x.com") [alice_take])
                fresh_install)
  = Returned [alice_take].
Proof.
  apply (logins_share_catalog resolving resolving "a@x.com" "b@y.org"
           [alice_take] fresh_install).
  - repeat constructor.
  - split; reflexivity.
  - exact I.
  - reflexivity.
Defined.

Lemma Number_toString_injective (m n : N) :
  Number_toString m = Number_toString n -> m = n.
Proof.
  unfold Number_toString. intros H.
  assert (Hu : N.to_uint m = N.to_uint n).
  { apply (f_equal NilEmpty.uint_of_string) in H.
    rewrite !NilEmpty.usu in H. congruence. }
  apply (f_equal N.of_uint) in Hu.
  rewrite !DecimalN.Unsigned.of_to in Hu. exact Hu.
Qed.

(** X20. The id that [register] fabricates is decided by the clock alone:
    two registrations get the same id exactly when they happen in the
    same millisecond, whatever the emails and names.  Registering again
    with the same email later gives another id, and an id equal to the
    one of [login] only at millisecond 123. *)
Theorem register_ids (p1 p2 : Platform) (email1 email2 name1 name2 : string) :
  (User.id (register_userData p1 email1 name1)
   = User.id (register_userData p2 email2 name2)
   <-> Date_now p1 = Date_now p2) /\
  (User.id (register_userData p1 email1 name1)
   = User.id (login_userData email2)
   <-> Date_now p1 = 123%N).
Proof.
  split; split.
  - cbn. intros H. injection H as H. apply Number_toString_injective, H.
  - cbn. intros ->. reflexivity.
  - cbn. intros H. injection H as H.
    apply (Number_toString_injective _ 123%N), H.
  - cbn. intros ->. reflexivity.
Qed.

Lemma register_ids_witness :
  User.id (register_userData resolving "b@x.com" "Bob")
  <> User.id (register_userData later "b@x.com" "Bob").
Proof.
  intros H.
  apply (proj1 (proj1 (register_ids resolving later "b@x.com" "b@x.com"
                         "Bob" "Bob"))) in H.
  discriminate H.
Defined.

(** X21. The name [login] gives the user is the email up to its first
    at-sign, the whole email when it has none: the email is that name
    followed by nothing or by an at-sign and the rest, and the name
    itself holds no at-sign. *)
Theorem login_name_is_local_part (email : string) :
  let name := User.name (login_userData email) in
  (exists rest,
      email = name ++ rest /\
      (rest = EmptyString \/ exists tail, rest = String "@"%char tail)) /\
  ~ In "@"%char (list_ascii_of_string name).
Proof.
  cbn. induction email as [|c email [(rest & Hrest & Hshape) Hno]]; cbn.
  - split; [|intros []]. exists EmptyString. split; [reflexivity|now left].
  - destruct (Ascii.eqb_spec c "@"%char) as [E|E]; cbn.
    + split; [|intros []]. exists (String c email). split; [reflexivity|].
      right. exists email. congruence.
    + split.
      * exists rest. split; [congruence|exact Hshape].
      * intros [H|H]; [congruence|exact (Hno H)].
Qed.

(** *** A playback that has finished *)

(** X22. The end of a playback clears the tracked id but keeps the sound
    handle, so a deletion that follows does not stop anything.  When the
    device reports that the playing recording just finished and the
    recording is then deleted, the filesystem and the store answering,
    the payload and the catalog entry are gone, no stop or unload was
    asked of the device, and the sound handle opened on that payload is
    still held and still open. *)
Theorem delete_after_finish_keeps_handle (p : Platform) (w : World)
    (recordingId : string) (sound : handle) (r : Recording.t)
    (status : PlaybackStatus) :
  playing (audio w) recordingId sound ->
  In sound (openSounds (device w)) ->
  find (has_id recordingId) (recordings (audio w)) = Some r ->
  isLoaded status = true ->
  didJustFinish status = true ->
  rejects p deleteAsync = false ->
  store_resolves p ->
  blob_readable w ->
  let w1 := after (onPlaybackStatusUpdate status) w in
  let w2 := after (deleteRecording p recordingId) w1 in
  currentPlayingId (audio w1) = None /\
  isPlaying (audio w1) = false /\
  currentSound (audio w2) = Some sound /\
  In sound (openSounds (device w2)) /\
  ~ In (Recording.uri r) (files (device w2)) /\
  ~ In recordingId (map Recording.id (recordings (audio w2))) /\
  events w2 = WroteItem "audioRecordings" :: ReadItem "audioRecordings"
              :: DeletedFile (Recording.uri r) :: events w.
Proof.
  intros (Hsound & Hid & Hplay) Hopen Hfind Hloaded Hfinish Hdelete
         [Hget Hset] Hblob. cbv zeta.
  unfold onPlaybackStatusUpdate, deleteRecording. unfold_async.
  rewrite Hloaded, Hfinish. cbn. rewrite Hfind, Hdelete. cbn.
  split; [reflexivity|]. split; [reflexivity|].
  rewrite saveRecordings_resolves; [|exact Hget|exact Hset|exact Hblob].
  cbn. repeat split; auto using remove_file_not_in, filtered_id_absent.
Qed.

Lemma delete_after_finish_keeps_handle_witness :
  currentSound
    (audio (after (deleteRecording resolving "1700000000000")
              (after (onPlaybackStatusUpdate (mkPlaybackStatus true false true))
                     listening)))
  = Some 0 /\
  files
    (device (after (deleteRecording resolving "1700000000000")
               (after (onPlaybackStatusUpdate (mkPlaybackStatus true false true))
                      listening)))
  = [].
Proof.
  destruct (delete_after_finish_keeps_handle resolving listening
              "1700000000000" 0 alice_take (mkPlaybackStatus true false true))
    as (_ & _ & Hsound & _ & _ & _ & _);
    [ repeat split | left; reflexivity | reflexivity | reflexivity
    | reflexivity | reflexivity | split; reflexivity | exact I | ].
  split; [exact Hsound | reflexivity].
Defined.

(** *** Stopping a capture with nobody signed in *)

(** X23. A capture that runs when the user signs out cannot be stopped
    until somebody signs in.  [logout] leaves the capture handle held and
    open and the recording flag up, and [stopRecording] then returns
    without stopping the capture or changing anything. *)
Theorem stopRecording_signed_out (p p' : Platform) (w : World) (capture : handle) :
  currentRecording (audio w) = Some capture ->
  rejects p deleteItemAsync = false ->
  rejects p removeItem = false ->
  let w1 := after (logout p) w in
  currentRecording (audio w1) = Some capture /\
  isRecording (audio w1) = isRecording (audio w) /\
  openCaptures (device w1) = openCaptures (device w) /\
  stopRecording p' w1 = (w1, Returned tt).
Proof.
  intros Hcap H1 H2. cbv zeta.
  unfold logout, stopRecording, stopRecording_body. unfold_async.
  rewrite H1. cbn. rewrite H2. cbn. rewrite Hcap. repeat split.
Qed.

Lemma stopRecording_signed_out_witness :
  stopRecording resolving (after (logout resolving) capturing)
  = (after (logout resolving) capturing, Returned tt).
Proof.
  apply (stopRecording_signed_out resolving resolving capturing 0); reflexivity.
Defined.

(** *** Recording, then deleting the recording *)

Lemma find_fresh (i : string) (l : list Recording.t) (e : Recording.t) :
  ~ In i (map Recording.id l) ->
  Recording.id e = i ->
  find (has_id i) (l ++ [e]) = Some e.
Proof.
  intros Hl He. induction l as [|r l IH]; cbn.
  - unfold has_id. rewrite He, String.eqb_refl. reflexivity.
  - unfold has_id at 1.
    destruct (String.eqb_spec (Recording.id r) i) as [E|E].
    + exfalso. apply Hl. left. exact E.
    + apply IH. intros H. apply Hl. right. exact H.
Qed.

Lemma filter_fresh (i : string) (l : list Recording.t) (e : Recording.t) :
  ~ In i (map Recording.id l) ->
  Recording.id e = i ->
  filter (fun r => negb (has_id i r)) (l ++ [e]) = l.
Proof.
  intros Hl He. rewrite filter_app. cbn. unfold has_id at 2.
  rewrite He, String.eqb_refl. cbn. rewrite app_nil_r.
  apply filter_all. apply Forall_forall. intros r Hr. unfold has_id.
  apply negb_true_iff, String.eqb_neq. intros E. apply Hl.
  apply in_map_iff. exists r. split; assumption.
Qed.

Lemma after_then (m k : Async unit) (w : World) :
  result m w = Returned tt ->
  after (m ;; k) w = after k (after m w).
Proof.
  unfold result, after, bind. destruct (m w) as [w1 o]. cbn.
  intros ->. reflexivity.
Qed.

Lemma stopRecording_run (p : Platform) (w : World) (capture : handle)
    (u : User.t) (uri : string) :
  currentRecording (audio w) = Some capture ->
  user (auth w) = Some u ->
  getURI p = Some uri ->
  uri <> EmptyString ->
  rejects p stopAndUnloadAsync = false ->
  rejects p getStatusAsync = false ->
  store_resolves p ->
  blob_readable w ->
  let w1 := after (stopRecording p) w in
  recordings (audio w1)
  = (recordings (audio w)
     ++ [newRecording p uri (durationMillis p) (recordings (audio w)) u])%list /\
  capture_idle (audio w1) /\
  currentPlayingId (audio w1) = currentPlayingId (audio w) /\
  files (device w1) = uri :: files (device w).
Proof.
  intros Hcap Hu Huri Hne Hstop Hstatus [Hget Hset] Hblob. cbv zeta.
  unfold stopRecording, stopRecording_body. unfold_async.
  rewrite Hcap, Hu, Hstop, Huri. cbn.
  apply truthy_string_true in Hne. rewrite Hne, Hstatus. cbn.
  rewrite saveRecordings_resolves; [|exact Hget|exact Hset|exact Hblob].
  unfold capture_idle. cbn. repeat split.
Qed.

Lemma deleteRecording_run (p : Platform) (w : World) (recordingId : string)
    (r : Recording.t) :
  find (has_id recordingId) (recordings (audio w)) = Some r ->
  currentPlayingId (audio w) <> Some recordingId ->
  rejects p deleteAsync = false ->
  store_resolves p ->
  blob_readable w ->
  let w' := after (deleteRecording p recordingId) w in
  recordings (audio w')
  = filter (fun x => negb (has_id recordingId x)) (recordings (audio w)) /\
  files (device w') = remove_file (Recording.uri r) (files (device w)) /\
  currentRecording (audio w') = currentRecording (audio w) /\
  isRecording (audio w') = isRecording (audio w).
Proof.
  intros Hfind Hplay Hdelete [Hget Hset] Hblob. cbv zeta.
  unfold deleteRecording. unfold_async.
  rewrite (is_playing_id_false _ _ Hplay). cbn. rewrite Hfind, Hdelete. cbn.
  rewrite saveRecordings_resolves; [|exact Hget|exact Hset|exact Hblob].
  cbn. repeat split.
Qed.

(** X24. Deleting the recording just made undoes the recording.  The
    catalog shows what is persisted, a capture is stopped with every call
    answered and its new id not yet in the catalog, and the new entry is
    then deleted: the catalog is again what it was before the capture
    was stopped, what is persisted for every user is what it was, the
    payload of the capture is not on the filesystem and the capture
    session is idle. *)
Theorem record_then_delete (p p' : Platform) (w : World) (capture : handle)
    (u : User.t) (uri : string) :
  in_sync u w ->
  blob_readable w ->
  currentRecording (audio w) = Some capture ->
  getURI p = Some uri ->
  uri <> EmptyString ->
  rejects p stopAndUnloadAsync = false ->
  rejects p getStatusAsync = false ->
  store_resolves p ->
  rejects p' deleteAsync = false ->
  store_resolves p' ->
  let newId := Number_toString (Date_now p) in
  ~ In newId (map Recording.id (recordings (audio w))) ->
  currentPlayingId (audio w) <> Some newId ->
  let w2 := after (stopRecording p ;; deleteRecording p' newId) w in
  recordings (audio w2) = recordings (audio w) /\
  (forall uid, persisted_for uid w2 = persisted_for uid w) /\
  ~ In uri (files (device w2)) /\
  capture_idle (audio w2).
Proof.
  intros Hsync Hblob Hcap Huri Hne Hstop Hstatus Hstore Hdelete Hstore'
         newId Hfresh Hplay w2.
  pose proof Hsync as [Hu _].
  set (entry := newRecording p uri (durationMillis p) (recordings (audio w)) u).
  assert (Hw2 : w2 = after (perform p' (DeleteRecording newId))
                           (after (perform p StopRecording) w)).
  { subst w2. cbn [perform]. apply after_then, notice_handler_returns. }
  set (w1 := after (perform p StopRecording) w) in *.
  pose proof (perform_catalog_step u p StopRecording w Hu) as Hstep1.
  destruct (perform_auth p StopRecording w) as (Hauth1 & _).
  fold w1 in Hstep1, Hauth1.
  destruct (step_in_sync u p w w1 Hstep1 Hauth1 Hstore (conj Hsync Hblob))
    as [Hsync1 Hblob1].
  pose proof (perform_catalog_step u p' (DeleteRecording newId) w1
                (proj1 Hsync1)) as Hstep2.
  destruct (perform_auth p' (DeleteRecording newId) w1) as (Hauth2 & _).
  rewrite <- Hw2 in Hstep2, Hauth2.
  destruct (step_in_sync u p' w1 w2 Hstep2 Hauth2 Hstore' (conj Hsync1 Hblob1))
    as [[_ Hsync2] _].
  destruct (stopRecording_run p w capture u uri Hcap Hu Huri Hne Hstop Hstatus
              Hstore Hblob) as (Hcat1 & [Hidle1 Hflag1] & Hplay1 & Hfiles1).
  change (after (stopRecording p) w) with w1 in Hcat1, Hidle1, Hflag1, Hplay1, Hfiles1.
  fold entry in Hcat1.
  destruct (deleteRecording_run p' w1 newId entry) as (Hcat2 & Hfiles2 & Hc2 & Hr2);
    auto.
  { rewrite Hcat1. apply find_fresh; [exact Hfresh|reflexivity]. }
  { rewrite Hplay1. exact Hplay. }
  change (after (deleteRecording p' newId) w1) with
    (after (perform p' (DeleteRecording newId)) w1) in Hcat2, Hfiles2, Hc2, Hr2.
  rewrite <- Hw2 in Hcat2, Hfiles2, Hc2, Hr2.
  assert (Hcat : recordings (audio w2) = recordings (audio w)).
  { rewrite Hcat2, Hcat1. apply filter_fresh; [exact Hfresh|reflexivity]. }
  split; [exact Hcat|]. split; [|split].
  - intros uid. destruct (String.eqb_spec uid (User.id u)) as [->|Hother].
    + rewrite <- Hsync2, Hcat. apply Hsync.
    + rewrite (step_isolated u p' w1 w2 uid Hstep2
                 (in_sync_owned u w1 Hsync1) Hother).
      apply (step_isolated u p w w1 uid Hstep1 (in_sync_owned u w Hsync) Hother).
  - rewrite Hfiles2. apply remove_file_not_in.
  - split; congruence.
Qed.

Lemma record_then_delete_witness :
  recordings
    (audio (after (stopRecording bobs_phone ;;
                   deleteRecording resolving "1700000600000")
                  (after (startRecording resolving) (library alice [alice_take]))))
  = [alice_take].
Proof.
  destruct (record_then_delete bobs_phone resolving
              (after (startRecording resolving) (library alice [alice_take]))
              0 alice "file:///cache/recording-2.m4a")
    as (Hcat & _);
    [ split; reflexivity | exact I | reflexivity | reflexivity | discriminate
    | reflexivity | reflexivity | split; reflexivity | reflexivity
    | split; reflexivity | | discriminate | exact Hcat ].
  cbn. intros [H|[]]. discriminate H.
Defined.

(** *** Saving a catalog that holds somebody else's recordings *)

(** X25. The save writes the whole catalog after the other users'
    entries, whoever owns the catalog's entries.  After a rename whose
    save goes through, what is persisted for any other user is what was
    persisted before followed by the catalog's entries of that user: no
    change when the catalog holds none, a second copy of each one it
    holds, as after a user change whose load left the previous catalog
    in place. *)
Theorem save_duplicates_foreign_entries (p : Platform) (w : World) (u : User.t)
    (recordingId newTitle uid : string) :
  user (auth w) = Some u ->
  store_resolves p ->
  blob_readable w ->
  uid <> User.id u ->
  let w' := after (updateRecordingTitle p recordingId newTitle) w in
  persisted_for uid w'
  = (persisted_for uid w
     ++ filter (owned_by uid)
               (map (retitle recordingId newTitle) (recordings (audio w))))%list.
Proof.
  intros Hu [Hget Hset] Hblob Hother. cbv zeta.
  unfold updateRecordingTitle. unfold_async.
  rewrite saveRecordings_resolves; [|exact Hget|exact Hset|exact Hblob].
  cbn [fst]. rewrite !persisted_for_entries, saved_entries. cbn [auth with_audio].
  rewrite Hu, filter_app, filter_filter. f_equal.
  apply filter_ext. intros r. unfold owned_by, is_user.
  destruct (String.eqb_spec (Recording.userId r) uid) as [E1|E1]; [|reflexivity].
  destruct (String.eqb_spec (Recording.userId r) (User.id u)) as [E2|E2];
    [congruence|reflexivity].
Qed.

Lemma save_duplicates_foreign_entries_witness :
  persisted_for (User.id alice)
    (after (updateRecordingTitle resolving "1600000000000" "Lost") unread_handover)
  = [alice_take; alice_take].
Proof.
  rewrite (save_duplicates_foreign_entries resolving unread_handover bob
             "1600000000000" "Lost" (User.id alice)).
  - reflexivity.
  - reflexivity.
  - split; reflexivity.
  - exact I.
  - discriminate.
Defined.

(** A state like [unread_handover] arises from the operations themselves. *)
Example unread_handover_reached :
  let w := after unread_handover_steps (library alice [alice_take]) in
  user (auth w) = user (auth unread_handover) /\
  recordings (audio w) = recordings (audio unread_handover) /\
  audioRecordings (storage w) = audioRecordings (storage unread_handover).
Proof. repeat split; vm_compute; reflexivity. Qed.
